(** * gogo: run Go source like a script, with a build cache

    A shallow embedding of the two programs of the repository:
    the cached runner (flags -once, -clear, -ver; functions
    [parseGoErrors], [splitErrorType], [showSourceContext], [buildWith],
    [getCachePaths], [validateCode], [stripShebang], [createModule],
    [runCached], [runOnce], [runBinary], [main]) and the earlier runner
    under cmd/ ([runWithGoModule] and its own [main]).

    Conventions.
    - A Go [string] is a [string] (a sequence of 8-bit characters); a Go
      [[]byte] is a [list byte].  [string(b)] is [string_of_list_byte]
      and [[]byte(s)] is [list_byte_of_string].
    - A Go [int] is 64 bits wide: a [Z] with the wrap-around [wrap64]
      written at every addition and subtraction of the source.
    - A Go [error] is [option error]: [None] is [nil].
    - The operating system, the clock and the Go toolchain are the
      environment: a record [Env] of oracles.  Each system call either
      fails, when the environment says so, or has its documented effect
      on a file system [gmap string Node]. *)

From Stdlib Require Import ZArith String Ascii List Bool Lia.
From Stdlib Require Import Strings.Byte.
From stdpp Require Import base option list strings gmap fin_maps.

Import ListNotations.
Local Open Scope string_scope.
Local Open Scope list_scope.
Local Open Scope Z_scope.

(** The line feed and the double quote, for the string literals of the
    source that hold them. *)
Definition nl : string := String (ascii_of_nat 10) EmptyString.
Definition quote : string := String (ascii_of_nat 34) EmptyString.

(** ** Formatted text

    [fmt.Printf], [fmt.Sprintf] and [fmt.Errorf] are kept as the call
    that was made: the format string and its arguments. *)

Inductive error : Type :=
| Errorf (format : string) (args : list arg)
| SysError (op path : string)
| ExitError (msg : string)
with arg : Type :=
| AStr (s : string)
| AInt (n : Z)
| AErr (e : error).

(** ** The Go [int] *)

Definition wrap64 (z : Z) : Z := (z + 2 ^ 63) mod 2 ^ 64 - 2 ^ 63.
Definition maxInt64 : Z := 2 ^ 63 - 1.
Definition minInt64 : Z := - 2 ^ 63.
Definition int64_range (z : Z) : Prop := minInt64 <= z <= maxInt64.

(** ** Package strings *)

Module GoStrings.

(** [s[:n]] and [s[n:]]. *)
Fixpoint slice_to (s : string) (n : nat) : string :=
  match n, s with
  | S n', String c s' => String c (slice_to s' n')
  | _, _ => ""
  end.

Fixpoint slice_from (s : string) (n : nat) : string :=
  match n, s with
  | S n', String _ s' => slice_from s' n'
  | _, _ => s
  end.

Definition HasPrefix (s pre : string) : bool := String.prefix pre s.

Definition TrimPrefix (s pre : string) : string :=
  if HasPrefix s pre then slice_from s (String.length pre) else s.

(** [strings.Index]: the position of the first occurrence, or -1. *)
Fixpoint Index_from (s sub : string) (i : Z) : Z :=
  if String.prefix sub s then i
  else match s with
       | "" => -1
       | String _ s' => Index_from s' sub (i + 1)
       end.

Definition Index (s sub : string) : Z := Index_from s sub 0.

(** [strings.Split] at a separator of one byte, the only kind the
    source uses.  The result is never empty. *)
Fixpoint Split (s : string) (sep : ascii) : list string :=
  match s with
  | "" => [""]
  | String c s' =>
      if Ascii.eqb c sep then "" :: Split s' sep
      else match Split s' sep with
           | x :: xs => String c x :: xs
           | [] => [String c ""]
           end
  end.

Definition str_of_codes (l : list nat) : string :=
  string_of_list_ascii (map ascii_of_nat l).

(** The UTF-8 encodings of the code points with the Unicode property
    White_Space, the ones [unicode.IsSpace] accepts: U+0009..U+000D,
    U+0020, U+0085, U+00A0, U+1680, U+2000..U+200A, U+2028, U+2029,
    U+202F, U+205F, U+3000. *)
Definition spaceEncodings : list string :=
  map str_of_codes
    [ [9]; [10]; [11]; [12]; [13]; [32];
      [194; 133]; [194; 160]; [225; 154; 128];
      [226; 128; 128]; [226; 128; 129]; [226; 128; 130];
      [226; 128; 131]; [226; 128; 132]; [226; 128; 133];
      [226; 128; 134]; [226; 128; 135]; [226; 128; 136];
      [226; 128; 137]; [226; 128; 138];
      [226; 128; 168]; [226; 128; 169]; [226; 128; 175];
      [226; 129; 159]; [227; 128; 128] ]%nat.

Fixpoint stripOneOf (pres : list string) (s : string) : option string :=
  match pres with
  | [] => None
  | p :: pres' =>
      if String.prefix p s then Some (slice_from s (String.length p))
      else stripOneOf pres' s
  end.

Fixpoint trimLeft_fuel (fuel : nat) (pres : list string) (s : string) : string :=
  match fuel with
  | O => s
  | S fuel' =>
      match stripOneOf pres s with
      | Some s' => trimLeft_fuel fuel' pres s'
      | None => s
      end
  end.

Definition TrimLeftSpace (s : string) : string :=
  trimLeft_fuel (String.length s) spaceEncodings s.

(** Trailing white space is found by decoding runes backwards, which
    for these encodings is stripping their reversals from the
    reversed string. *)
Definition TrimRightSpace (s : string) : string :=
  String.rev
    (trimLeft_fuel (String.length s) (map String.rev spaceEncodings)
       (String.rev s)).

Definition TrimSpace (s : string) : string :=
  TrimRightSpace (TrimLeftSpace s).

End GoStrings.

Import GoStrings.

(** ** Package bufio: a [Scanner] with the default [ScanLines] *)

Definition byte_nl : byte := x0a.
Definition byte_cr : byte := x0d.

(** The lines of the input: a final line need not be terminated, and an
    empty final line is no line. *)
Fixpoint rawLines (l : list byte) : list (list byte) :=
  match l with
  | [] => []
  | b :: l' =>
      if Byte.eqb b byte_nl then [] :: rawLines l'
      else match rawLines l' with
           | x :: xs => (b :: x) :: xs
           | [] => [[b]]
           end
  end.

Definition MaxScanTokenSize : Z := 65536.

(** [Scan] gives up at the first line that does not fit the buffer. *)
Fixpoint scannable (ls : list (list byte)) : list (list byte) :=
  match ls with
  | [] => []
  | x :: xs =>
      if Z.of_nat (length x) <? MaxScanTokenSize then x :: scannable xs else []
  end.

Definition dropCR (l : list byte) : list byte :=
  match rev l with
  | b :: r => if Byte.eqb b byte_cr then rev r else l
  | [] => l
  end.

(** The successive values of [scanner.Text()]. *)
Definition scanTexts (code : list byte) : list string :=
  map (fun l => string_of_list_byte (dropCR l)) (scannable (rawLines code)).

(** ** The source normalizer *)

Definition errNoPackage : error :=
  Errorf ("code must contain " +:+ quote +:+ "package <name>" +:+ quote) [].

(** [validateCode]: the loop over [scanner.Scan()]. *)
Fixpoint validateCode_scan (texts : list string) : option error :=
  match texts with
  | [] => Some errNoPackage
  | text :: rest =>
      let line := TrimSpace text in
      if String.eqb line "" || HasPrefix line "//" then validateCode_scan rest
      else if HasPrefix line "package " then None
      else Some errNoPackage
  end.

Definition validateCode (code : list byte) : option error :=
  validateCode_scan (scanTexts code).

(** [stripShebang]: the inner loop returns [code[i+1:]] at the first
    [i >= 2] with [code[i] == '\n']. *)
Fixpoint afterNewline (l : list byte) : option (list byte) :=
  match l with
  | [] => None
  | b :: l' => if Byte.eqb b byte_nl then Some l' else afterNewline l'
  end.

Definition hasShebang (code : list byte) : bool :=
  match code with
  | b0 :: b1 :: _ :: _ => Byte.eqb b0 x23 && Byte.eqb b1 x21
  | _ => false
  end.

Definition errShebang : error := Errorf "incorrect data received" [].

Definition stripShebang (code : list byte) : list byte * option error :=
  if hasShebang code then
    match afterNewline (drop 2 code) with
    | Some rest => (rest, None)
    | None => (code, Some errShebang)
    end
  else (code, None).

(** ** Terminal output *)

Inductive stream : Type := Stdout | Stderr.

(** The colours of the source: the package-level [color.New] values and
    the helpers [color.Red] and [color.Yellow]. *)
Inductive style : Type :=
| Plain | ErrTitle | ErrFile | ErrLine | ErrMsg | ErrHint
| CodeLine | CodeNum | Red | Yellow.

(** One call of a printing function, with its format and arguments.
    [color.Red] and [color.Yellow] end their line themselves. *)
Inductive output : Type :=
| Printf (st : style) (w : stream) (format : string) (args : list arg)
| Println (st : style) (w : stream) (args : list arg).

(** ** Package regexp, as far as [errorPattern] needs it

    A pattern anchored at both ends, made of literal bytes and greedy
    repetitions of a byte class, some of them capturing.  Matching is
    leftmost-first: a repetition tries its longest extent first and
    gives bytes back one at a time. *)

Inductive atom : Type :=
| Lit (c : ascii)
| Rep (cls : ascii -> bool) (min : nat) (capture : bool).

Fixpoint spanLen (cls : ascii -> bool) (s : string) : nat :=
  match s with
  | String c s' => if cls c then S (spanLen cls s') else O
  | EmptyString => O
  end.

(** The greedy choice: the first of [n], [n-1], ..., [0] at which
    [k] succeeds. *)
Fixpoint tryLens {A : Type} (k : nat -> option A) (n : nat) : option A :=
  match k n with
  | Some r => Some r
  | None => match n with O => None | S n' => tryLens k n' end
  end.

Fixpoint matchAtoms (pat : list atom) (s : string) : option (list string) :=
  match pat with
  | [] => match s with EmptyString => Some [] | _ => None end
  | Lit c :: pat' =>
      match s with
      | String x s' => if Ascii.eqb x c then matchAtoms pat' s' else None
      | EmptyString => None
      end
  | Rep cls mn cap :: pat' =>
      tryLens
        (fun n =>
           if (mn <=? n)%nat then
             match matchAtoms pat' (slice_from s n) with
             | Some caps => Some (if cap then slice_to s n :: caps else caps)
             | None => None
             end
           else None)
        (spanLen cls s)
  end.

Definition FindStringSubmatch (pat : list atom) (s : string) : list string :=
  match matchAtoms pat s with
  | Some caps => s :: caps
  | None => []
  end.

Definition isDot (c : ascii) : bool := negb (Ascii.eqb c (ascii_of_nat 10)).
Definition isDigit (c : ascii) : bool :=
  let n := nat_of_ascii c in ((48 <=? n) && (n <=? 57))%nat.
(** The class of [\s]: tab, newline, form feed, carriage return, space. *)
Definition isPerlSpace (c : ascii) : bool :=
  let n := nat_of_ascii c in
  ((n =? 9) || (n =? 10) || (n =? 12) || (n =? 13) || (n =? 32))%nat.

(** [^(.+)\:(\d+)\:(\d+)\:\s*(.+)$] *)
Definition errorPattern : list atom :=
  [ Rep isDot 1 true; Lit ":"; Rep isDigit 1 true; Lit ":";
    Rep isDigit 1 true; Lit ":"; Rep isPerlSpace 0 false; Rep isDot 1 true ].

(** ** Package strconv *)

Fixpoint digitsValue (s : string) (acc : Z) : Z :=
  match s with
  | String c s' => digitsValue s' (10 * acc + (Z.of_nat (nat_of_ascii c) - 48))
  | EmptyString => acc
  end.

Fixpoint allDigits (s : string) : bool :=
  match s with
  | String c s' => isDigit c && allDigits s'
  | EmptyString => true
  end.

Definition errSyntax : error := Errorf "strconv.Atoi: invalid syntax" [].
Definition errRange : error := Errorf "strconv.Atoi: value out of range" [].

Definition splitSign (s : string) : bool * string :=
  match s with
  | String "-" r => (true, r)
  | String "+" r => (false, r)
  | _ => (false, s)
  end.

(** [strconv.Atoi] on an optional sign and decimal digits; out of range
    it returns the nearest bound together with its error. *)
Definition Atoi (s : string) : Z * option error :=
  let '(neg, ds) := splitSign s in
  if String.eqb ds "" || negb (allDigits ds) then (0, Some errSyntax)
  else
    let v := digitsValue ds 0 in
    if neg then
      if v <=? 2 ^ 63 then (- v, None) else (minInt64, Some errRange)
    else
      if v <=? maxInt64 then (v, None) else (maxInt64, Some errRange).

(** ** The diagnostic formatter *)

Definition knownTypes : list string :=
  [ "undefined"; "cannot find package"; "imported and not used";
    "declared but not used"; "syntax error"; "invalid operation" ].

Definition splitErrorType (msg : string) : string * string :=
  let idx := Index msg ":" in
  if 0 <? idx then
    let possibleType := slice_to msg (Z.to_nat idx) in
    if existsb (String.eqb possibleType) knownTypes
    then (possibleType, TrimSpace (slice_from msg (Z.to_nat (idx + 1))))
    else ("error", msg)
  else ("error", msg).

Definition newline : ascii := ascii_of_nat 10.

(** The loop [for i := start; i < end; i++] of [showSourceContext];
    [None] is the run-time panic of an index out of range. *)
Fixpoint showSourceContext_loop (fuel : nat) (lines : list string)
    (errorLine i end_ : Z) : option (list output) :=
  match fuel with
  | O => Some []
  | S fuel' =>
      if i <? end_ then
        let num := wrap64 (i + 1) in
        if i <? 0 then None
        else
          match lines !! Z.to_nat i with
          | None => None
          | Some l =>
              let marked :=
                if num =? errorLine
                then [ Printf CodeNum Stdout "  → %d | " [AInt num];
                       Println CodeLine Stdout [AStr l] ]
                else [ Printf CodeNum Stdout "    %d | " [AInt num];
                       Println CodeLine Stdout [AStr l] ] in
              match showSourceContext_loop fuel' lines errorLine
                      (wrap64 (i + 1)) end_ with
              | Some rest => Some (marked ++ rest)
              | None => None
              end
          end
      else Some []
  end.

Definition showSourceContext_run (source : list byte) (errorLine : Z)
    : option (list output) :=
  let lines := Split (string_of_list_byte source) newline in
  let len := Z.of_nat (length lines) in
  if (errorLine <? 1) || (len <? errorLine) then Some []
  else
    let start := wrap64 (errorLine - 2) in
    let start := if start <? 0 then 0 else start in
    let end_ := wrap64 (errorLine + 1) in
    let end_ := if len <? end_ then len else end_ in
    showSourceContext_loop (Z.to_nat (end_ - start)) lines errorLine start end_.

(** What [showSourceContext] prints; it never panics
    ([showSourceContext_total] below). *)
Definition showSourceContext (source : list byte) (errorLine : Z) : list output :=
  default [] (showSourceContext_run source errorLine).

(** One turn of the loop of [parseGoErrors]: whether the line set
    [foundErrors], and what it printed. *)
Definition parseGoErrors_line (sourceCode : list byte) (line : string)
    : bool * list output :=
  let line := TrimSpace line in
  if String.eqb line "" then (false, [])
  else
    let matches := FindStringSubmatch errorPattern line in
    if negb (length matches =? 5)%nat then
      (false, [Println Plain Stdout [AStr line]])
    else
      let file := nth 1 matches "" in
      let lineNum := fst (Atoi (nth 2 matches "")) in
      let col := nth 3 matches "" in
      let message := nth 4 matches "" in
      let '(errType, description) := splitErrorType message in
      (true,
       [ Printf ErrTitle Stdout ("%s" +:+ nl) [AStr errType];
         Printf ErrFile Stdout "   %s" [AStr file];
         Printf ErrLine Stdout ":%d" [AInt lineNum];
         Printf ErrHint Stdout (":%s" +:+ nl) [AStr col];
         Printf ErrMsg Stdout ("   %s" +:+ nl) [AStr description] ]
       ++ (if (0 <? length sourceCode)%nat
           then showSourceContext sourceCode lineNum else [])
       ++ [ Println Plain Stdout [] ]).

Fixpoint parseGoErrors_loop (sourceCode : list byte) (lines : list string)
    (foundErrors : bool) : bool * list output :=
  match lines with
  | [] => (foundErrors, [])
  | line :: rest =>
      let '(found, out) := parseGoErrors_line sourceCode line in
      let '(found', out') :=
        parseGoErrors_loop sourceCode rest (found || foundErrors) in
      (found', out ++ out')
  end.

Definition parseGoErrors (rawOutput : string) (sourceCode : list byte)
    : list output :=
  let lines := Split rawOutput newline in
  let '(foundErrors, out) := parseGoErrors_loop sourceCode lines false in
  out ++ (if foundErrors
          then [ Printf Red Stdout (nl +:+ "Compilation failed") [] ] else []).

(** ** The environment: file system, clock, toolchain *)

Inductive result (A : Type) : Type :=
| Ok (a : A)
| Fail (e : error).
Arguments Ok {A} a.
Arguments Fail {A} e.

Inductive Node : Type :=
| File (data : list byte) (perm : Z) (modTime : Z)
| Dir (perm : Z) (modTime : Z).

(** [info.ModTime()], in nanoseconds since the epoch. *)
Definition ModTime (n : Node) : Z :=
  match n with
  | File _ _ t => t
  | Dir _ t => t
  end.

Inductive syscall : Type :=
| Stat (name : string)
| MkdirAll (path : string) (perm : Z)
| WriteFile (name : string) (data : list byte) (perm : Z)
| MkdirTemp (dir pattern : string)
| RemoveAll (path : string)
| Chmod (name : string) (mode : Z)
| ReadFile (name : string)
| ReadStdin.

(** An [exec.Cmd]: [exec.Command(name, args...)] with its [Dir]. *)
Record command : Type := Command {
  cmd_name : string;
  cmd_args : list string;
  cmd_dir : string
}.

(** What the run left behind, newest first. *)
Inductive event : Type :=
| EvCall (c : syscall) (err : option error)
| EvMkdirTemp (pattern : string) (r : result string)
| EvExec (c : command) (err : option error)
| EvPrint (o : output).

(** The outcome of [cmd.Run()]: its error, what the process wrote to a
    captured standard error, and the file system it left. *)
Record exec_result : Type := ExecResult {
  exec_err : option error;
  exec_stderr : string;
  exec_fs : gmap string Node
}.

Record Env : Type := {
  GOOS : string;                              (* runtime.GOOS *)
  Version : string;                           (* runtime.Version() *)
  UserCacheDir : result string;               (* os.UserCacheDir() *)
  TempDir : string;                           (* os.TempDir() *)
  sha256_hex : list byte -> string;           (* hex of sha256.Sum256 *)
  Sprintf : string -> list arg -> string;     (* fmt.Sprintf *)
  FormatRFC3339 : Z -> string;                (* Time.Format(time.RFC3339) *)
  clock : list event -> Z;                    (* time.Now() *)
  fault : list event -> syscall -> option error;
  randomName : list event -> string;          (* the random part of MkdirTemp *)
  run : list event -> command -> gmap string Node -> exec_result;
  stdin : result (list byte)                  (* io.ReadAll(os.Stdin) *)
}.

Record World : Type := {
  fs : gmap string Node;
  trace : list event
}.

(** *** Package filepath *)

Definition Separator (env : Env) : string :=
  if String.eqb (GOOS env) "windows" then "\" else "/".

Fixpoint joinWith (sep : string) (elems : list string) : string :=
  match elems with
  | [] => ""
  | [e] => e
  | e :: rest => e +:+ sep +:+ joinWith sep rest
  end.

(** [filepath.Join] drops empty elements; the elements the source
    joins are clean already, so [Clean] has nothing to do. *)
Definition Join (env : Env) (elems : list string) : string :=
  joinWith (Separator env)
    (filter (fun e => negb (String.eqb e "")) elems).

(** [p] is [root] or lies below it. *)
Definition under (env : Env) (root p : string) : bool :=
  String.eqb p root || HasPrefix p (root +:+ Separator env).

(** *** The state monad of a run *)

Definition M (A : Type) : Type := World -> A * World.

Global Instance M_ret : MRet M := fun A a w => (a, w).
Global Instance M_bind : MBind M :=
  fun A B k m w => let '(a, w') := m w in k a w'.

Definition emit (e : event) : M unit :=
  fun w => (tt, {| fs := fs w; trace := e :: trace w |}).

Definition print (o : output) : M unit := emit (EvPrint o).

Fixpoint printAll (os : list output) : M unit :=
  match os with
  | [] => mret tt
  | o :: os' => print o ;; printAll os'
  end.

(** A system call: the environment may make it fail; otherwise [eff]
    gives its error or its new file system. *)
Definition sys (env : Env) (c : syscall)
    (eff : gmap string Node -> result (gmap string Node)) : M (option error) :=
  fun w =>
    match fault env (trace w) c with
    | Some e => (Some e, {| fs := fs w; trace := EvCall c (Some e) :: trace w |})
    | None =>
        match eff (fs w) with
        | Fail e => (Some e, {| fs := fs w; trace := EvCall c (Some e) :: trace w |})
        | Ok m => (None, {| fs := m; trace := EvCall c None :: trace w |})
        end
    end.

Definition time_Now (env : Env) : M Z := fun w => (clock env (trace w), w).

(** *** Package os *)

Definition os_Stat (env : Env) (name : string) : M (result Node) :=
  fun w =>
    let c := Stat name in
    match fault env (trace w) c with
    | Some e => (Fail e, {| fs := fs w; trace := EvCall c (Some e) :: trace w |})
    | None =>
        match fs w !! name with
        | Some n => (Ok n, {| fs := fs w; trace := EvCall c None :: trace w |})
        | None =>
            let e := SysError "stat" name in
            (Fail e, {| fs := fs w; trace := EvCall c (Some e) :: trace w |})
        end
    end.

Definition os_MkdirAll (env : Env) (path : string) (perm : Z) : M (option error) :=
  fun w =>
    sys env (MkdirAll path perm)
      (fun m => match m !! path with
                | Some (Dir _ _) => Ok m
                | Some (File _ _ _) => Fail (SysError "mkdir" path)
                | None => Ok (<[path := Dir perm (clock env (trace w))]> m)
                end) w.

Definition os_WriteFile (env : Env) (name : string) (data : list byte) (perm : Z)
    : M (option error) :=
  fun w =>
    sys env (WriteFile name data perm)
      (fun m => match m !! name with
                | Some (Dir _ _) => Fail (SysError "open" name)
                | Some (File _ p _) => Ok (<[name := File data p (clock env (trace w))]> m)
                | None => Ok (<[name := File data perm (clock env (trace w))]> m)
                end) w.

Definition os_Chmod (env : Env) (name : string) (mode : Z) : M (option error) :=
  sys env (Chmod name mode)
    (fun m => match m !! name with
              | Some (File d _ t) => Ok (<[name := File d mode t]> m)
              | Some (Dir _ t) => Ok (<[name := Dir mode t]> m)
              | None => Fail (SysError "chmod" name)
              end).

(** [os.RemoveAll] removes [path] and everything below it; on the empty
    path it does nothing and returns [nil]. *)
Definition os_RemoveAll (env : Env) (path : string) : M (option error) :=
  sys env (RemoveAll path)
    (fun m => if String.eqb path "" then Ok m
              else Ok (filter (fun kv => under env path kv.1 = false) m)).

(** [os.MkdirTemp(dir, pattern)]: a new directory whose name is the
    pattern with its last star replaced by a random string. *)
Definition tempPath (env : Env) (dir pattern : string) (random : string) : string :=
  let dir := if String.eqb dir "" then TempDir env else dir in
  let name :=
    match rev (Split pattern "*") with
    | [] | [_] => pattern +:+ random
    | suffix :: prefix_rev =>
        joinWith "*" (rev prefix_rev) +:+ random +:+ suffix
    end in
  dir +:+ Separator env +:+ name.

Definition os_MkdirTemp (env : Env) (dir pattern : string) : M (result string) :=
  fun w =>
    match fault env (trace w) (MkdirTemp dir pattern) with
    | Some e =>
        (Fail e, {| fs := fs w; trace := EvMkdirTemp pattern (Fail e) :: trace w |})
    | None =>
        let p := tempPath env dir pattern (randomName env (trace w)) in
        (Ok p, {| fs := <[p := Dir 448 (clock env (trace w))]> (fs w);
                  trace := EvMkdirTemp pattern (Ok p) :: trace w |})
    end.

Definition os_ReadFile (env : Env) (name : string) : M (result (list byte)) :=
  fun w =>
    let c := ReadFile name in
    match fault env (trace w) c with
    | Some e => (Fail e, {| fs := fs w; trace := EvCall c (Some e) :: trace w |})
    | None =>
        match fs w !! name with
        | Some (File d _ _) => (Ok d, {| fs := fs w; trace := EvCall c None :: trace w |})
        | _ =>
            let e := SysError "read" name in
            (Fail e, {| fs := fs w; trace := EvCall c (Some e) :: trace w |})
        end
    end.

Definition io_ReadAll_Stdin (env : Env) : M (result (list byte)) :=
  fun w =>
    match stdin env with
    | Ok d => (Ok d, {| fs := fs w; trace := EvCall ReadStdin None :: trace w |})
    | Fail e => (Fail e, {| fs := fs w; trace := EvCall ReadStdin (Some e) :: trace w |})
    end.

(** [cmd.Run()]: the process runs to its end and may change any file. *)
Definition cmd_Run (env : Env) (c : command) : M exec_result :=
  fun w =>
    let r := run env (trace w) c (fs w) in
    (r, {| fs := exec_fs r; trace := EvExec c (exec_err r) :: trace w |}).

(** *** Package time *)

Definition Hour : Z := 3600 * 1000000000.

(** [t.Sub(u)]: a [Duration], saturating at the bounds of int64. *)
Definition time_Sub (t u : Z) : Z :=
  let d := t - u in
  if maxInt64 <? d then maxInt64
  else if d <? minInt64 then minInt64
  else d.

Definition time_Since (env : Env) (t : Z) : M Z :=
  now ← time_Now env; mret (time_Sub now t).

(** [printErrWithColor]: a line on standard error in the colour [c]. *)
Definition printErrWithColor (c : style) (format : string) (args : list arg)
    : M unit :=
  print (Printf c Stderr (format +:+ nl) args).

(** ** The cached runner *)

Definition perm_0755 : Z := 493.
Definition perm_0644 : Z := 420.

(** [if err := step; err != nil { return err }] *)
Definition orReturn (step : M (option error)) (k : M (option error))
    : M (option error) :=
  err ← step;
  match err with
  | Some e => mret (Some e)
  | None => k
  end.

(** [defer d] ahead of [body]: [d] runs when [body] has returned. *)
Definition deferring {A B : Type} (d : M B) (body : M A) : M A :=
  a ← body; d ;; mret a.

Definition buildWith (env : Env) (tmpDir binaryPath : string)
    (sourceCode : list byte) : M (option error) :=
  r ← cmd_Run env (Command "go" ["build"; "-o"; binaryPath; "."] tmpDir);
  match exec_err r with
  | Some err =>
      let output := exec_stderr r in
      if String.eqb output "" then
        mret (Some (Errorf "build failed: %v" [AErr err]))
      else
        printAll (parseGoErrors output sourceCode) ;;
        mret (Some (Errorf "compilation failed" []))
  | None => mret None
  end.

Definition getCachePaths (env : Env) (code : list byte) : string * string :=
  let hashStr := slice_to (sha256_hex env code) 16 in
  match UserCacheDir env with
  | Fail _ => ("", "")
  | Ok casheRoot =>
      let dir := Join env [casheRoot; "gogo"; hashStr] in
      let binName :=
        if String.eqb (GOOS env) "windows" then "run.exe" else "run" in
      (dir, Join env [dir; binName])
  end.

Definition readInput (env : Env) (filename : string) : M (result (list byte)) :=
  if negb (String.eqb filename "") then os_ReadFile env filename
  else io_ReadAll_Stdin env.

Definition clearAllCache (env : Env) : M (option error) :=
  match UserCacheDir env with
  | Fail err => mret (Some err)
  | Ok cacheRoot => os_RemoveAll env (Join env [cacheRoot; "gogo"])
  end.

(** The version for go.mod: [runtime.Version()] without its prefix,
    cut down to major.minor. *)
Definition moduleGoVersion (env : Env) : string :=
  let goVersion := TrimPrefix (Version env) "go" in
  let parts := Split goVersion "." in
  if (2 <=? length parts)%nat
  then nth 0 parts "" +:+ "." +:+ nth 1 parts ""
  else goVersion.

Definition createModule (env : Env) (dir : string) (code : list byte)
    : M (option error) :=
  let modContent :=
    Sprintf env ("module gogo-main" +:+ nl +:+ nl +:+ "go %s" +:+ nl) [AStr (moduleGoVersion env)] in
  orReturn
    (os_WriteFile env (Join env [dir; "go.mod"])
       (list_byte_of_string modContent) perm_0644)
    (os_WriteFile env (Join env [dir; "main.go"]) code perm_0644).

Definition runBinary (env : Env) (path : string) : M (option error) :=
  r ← cmd_Run env (Command path [] ""); mret (exec_err r).

(** [runCached], lines 241 to 246: is there a fresh binary? *)
Definition runCached_lookup (env : Env) (binaryPath : string) : M bool :=
  st ← os_Stat env binaryPath;
  match st with
  | Ok info =>
      age ← time_Since env (ModTime info);
      mret (age <? 3 * 24 * Hour)
  | Fail _ => mret false
  end.

(** [runCached] below its [defer]: module, go mod tidy, build, chmod,
    meta.txt, run. *)
Definition runCached_build (env : Env) (code : list byte)
    (cacheDir binaryPath tmpDir : string) : M (option error) :=
  orReturn (createModule env tmpDir code) (
    print (Printf Yellow Stdout "First run: downloading dependencies..." []) ;;
    tidy ← cmd_Run env (Command "go" ["mod"; "tidy"] tmpDir);
    match exec_err tidy with
    | Some err => mret (Some (Errorf "go mod tidy failed: %w" [AErr err]))
    | None =>
        print (Printf Yellow Stdout "Building..." []) ;;
        berr ← buildWith env tmpDir binaryPath code;
        match berr with
        | Some err => os_RemoveAll env cacheDir ;; mret (Some err)
        | None =>
            (if negb (String.eqb (GOOS env) "windows")
             then os_Chmod env binaryPath perm_0755 ;; mret tt
             else mret tt) ;;
            now ← time_Now env;
            let meta :=
              Sprintf env ("Built: %s" +:+ nl +:+ "Go: %s" +:+ nl)
                [AStr (FormatRFC3339 env now); AStr (Version env)] in
            os_WriteFile env (Join env [cacheDir; "meta.txt"])
              (list_byte_of_string meta) perm_0644 ;;
            runBinary env binaryPath
        end
    end).

(** [runCached] from line 248 on: the cache directory, the copy of the
    source, the temporary directory. *)
Definition runCached_miss (env : Env) (code : list byte)
    (cacheDir binaryPath : string) : M (option error) :=
  orReturn (os_MkdirAll env cacheDir perm_0755) (
    let sourcePath := Join env [cacheDir; "main.go"] in
    orReturn (os_WriteFile env sourcePath code perm_0644) (
      tmp ← os_MkdirTemp env "" "gogo-build-*";
      match tmp with
      | Fail err => mret (Some err)
      | Ok tmpDir =>
          deferring (os_RemoveAll env tmpDir)
            (runCached_build env code cacheDir binaryPath tmpDir)
      end)).

Definition runCached (env : Env) (code : list byte) : M (option error) :=
  let '(cacheDir, binaryPath) := getCachePaths env code in
  fresh ← runCached_lookup env binaryPath;
  if fresh : bool then
    print (Printf Yellow Stdout "Using cached binary" []) ;;
    runBinary env binaryPath
  else runCached_miss env code cacheDir binaryPath.

(** [runOnce] below its [defer]. *)
Definition runOnce_go (env : Env) (code : list byte) (tmpDir : string)
    : M (option error) :=
  orReturn (createModule env tmpDir code) (
    print (Println Plain Stderr [AStr "Checking dependencies..."]) ;;
    tidy ← cmd_Run env (Command "go" ["mod"; "tidy"] tmpDir);
    match exec_err tidy with
    | Some err => mret (Some (Errorf "go mod tidy failed: %w" [AErr err]))
    | None =>
        print (Println Plain Stderr [AStr "Running without cache..."]) ;;
        r ← cmd_Run env (Command "go" ["run"; "."] tmpDir);
        mret (exec_err r)
    end).

Definition runOnce (env : Env) (code : list byte) : M (option error) :=
  tmp ← os_MkdirTemp env "" "gogo-once-*";
  match tmp with
  | Fail err => mret (Some err)
  | Ok tmpDir => deferring (os_RemoveAll env tmpDir) (runOnce_go env code tmpDir)
  end.

(** The parsed command line: the three flags and [flag.Arg(0)]. *)
Record Flags : Type := {
  noCache : bool;
  clearCache : bool;
  showVersion : bool;
  arg0 : string
}.

Definition runEither (env : Env) (flags : Flags) (code : list byte)
    : M (option error) :=
  if noCache flags then runOnce env code else runCached env code.

Definition usage : list output :=
  [ Println Plain Stderr [AStr "Usage: echo 'code' | gogo"];
    Println Plain Stderr [AStr "       gogo file.go"];
    Println Plain Stderr
      [AStr "Flags: -once (no cache), -clear (clean cache), -version"] ].

(** [main]; the value is the exit status of the process, 0 when [main]
    returns and the argument of [os.Exit] otherwise. *)
Definition main (env : Env) (flags : Flags) : M Z :=
  if showVersion flags then
    print (Println Plain Stdout [AStr "gogo v0.1.0"]) ;; mret 0
  else if clearCache flags then
    cerr ← clearAllCache env;
    match cerr with
    | Some err =>
        print (Printf Plain Stderr ("Failed to clear cache: %v" +:+ nl) [AErr err]) ;;
        mret 1
    | None => print (Println Plain Stdout [AStr "Cache cleared!"]) ;; mret 0
    end
  else
    input ← readInput env (arg0 flags);
    match input with
    | Fail err =>
        print (Printf Plain Stderr ("Read error: %v" +:+ nl) [AErr err]) ;; mret 1
    | Ok code =>
        err ← runEither env flags code;
        match err with
        | Some e => print (Printf Plain Stderr ("Error: %v" +:+ nl) [AErr e]) ;; mret 1
        | None =>
            if (length code =? 0)%nat then printAll usage ;; mret 1
            else
              match validateCode code with
              | Some e =>
                  print (Printf Plain Stderr ("Error validation: %v" +:+ nl) [AErr e]) ;;
                  mret 1
              | None =>
                  match stripShebang code with
                  | (_, Some e) =>
                      print (Printf Plain Stderr ("Error shebang: %v" +:+ nl) [AErr e]) ;;
                      mret 1
                  | (code, None) =>
                      err ← runEither env flags code;
                      match err with
                      | Some e =>
                          print (Printf Plain Stderr ("Error: %v" +:+ nl) [AErr e]) ;;
                          mret 1
                      | None => mret 0
                      end
                  end
              end
        end
    end.

(** ** The earlier runner, cmd/main.go

    Its [validateCode] and [stripShebang] are, byte for byte, the ones
    above. *)

Module Gorun.

(** [os.Args[1:]] decides where the source comes from. *)
Definition readInput (env : Env) (args : list string) : M (result (list byte)) :=
  match args with
  | name :: _ => os_ReadFile env name
  | [] => io_ReadAll_Stdin env
  end.

Definition wrapErr (format : string) (step : M (option error))
    (k : M (option error)) : M (option error) :=
  err ← step;
  match err with
  | Some e => mret (Some (Errorf format [AErr e]))
  | None => k
  end.

(** [runWithGoModule] below its [defer]. *)
Definition runWithGoModule_go (env : Env) (code : list byte) (tmpDir : string)
    : M (option error) :=
  let modContent :=
    Sprintf env ("module gorun-main" +:+ nl +:+ nl +:+ "go %s" +:+ nl)
      [AStr (moduleGoVersion env)] in
  wrapErr "failed to create go.mod: %w"
    (os_WriteFile env (Join env [tmpDir; "go.mod"])
       (list_byte_of_string modContent) perm_0644) (
  wrapErr "failed to write in main.go: %w"
    (os_WriteFile env (Join env [tmpDir; "main.go"]) code perm_0644) (
  print (Println Plain Stderr [AStr "📦 Подготовка модулей..."]) ;;
  wrapErr "failed to tidy modules: %w"
    (r ← cmd_Run env (Command "go" ["mod"; "tidy"] tmpDir); mret (exec_err r)) (
  print (Println Plain Stderr [AStr "Компиляция и запуск..."]) ;;
  wrapErr "failed to run: %w"
    (r ← cmd_Run env (Command "go" ["run"; "."] tmpDir); mret (exec_err r))
    (mret None)))).

Definition runWithGoModule (env : Env) (code : list byte) : M (option error) :=
  tmp ← os_MkdirTemp env "" "gogo-*";
  match tmp with
  | Fail err => mret (Some (Errorf "failed to create directory: %w" [AErr err]))
  | Ok tmpDir =>
      deferring (os_RemoveAll env tmpDir) (runWithGoModule_go env code tmpDir)
  end.

Definition usage : list output :=
  [ Println Plain Stdout [AStr "Использование: echo 'код' | gorun"];
    Println Plain Stdout
      [AStr ("Пример: echo 'package main; import " +:+ quote +:+ "fmt"
             +:+ quote +:+ "; func main() { fmt.Println(" +:+ quote
             +:+ "Hello" +:+ quote +:+ ") }' | gorun")] ].

Definition main (env : Env) (args : list string) : M Z :=
  input ← readInput env args;
  match input with
  | Fail err =>
      print (Printf Plain Stderr ("Ошибка чтения: %v" +:+ nl) [AErr err]) ;;
      mret 1
  | Ok code =>
      if (length code =? 0)%nat then printAll usage ;; mret 0
      else
        match validateCode code with
        | Some e =>
            print (Printf Plain Stderr ("Ошибка валидации: %v" +:+ nl) [AErr e]) ;;
            mret 1
        | None =>
            match stripShebang code with
            | (_, Some e) =>
                print (Printf Plain Stderr ("error: %v" +:+ nl) [AErr e]) ;;
                mret 1
            | (code, None) =>
                print (Printf Plain Stdout ("Получен код (%d байт):" +:+ nl)
                         [AInt (Z.of_nat (length code))]) ;;
                print (Println Plain Stdout [AStr "────────────────────"]) ;;
                print (Println Plain Stdout [AStr (string_of_list_byte code)]) ;;
                err ← runWithGoModule env code;
                match err with
                | Some e =>
                    print (Printf Plain Stderr ("error: %v" +:+ nl) [AErr e]) ;;
                    mret 1
                | None =>
                    print (Println Plain Stderr
                             [AStr (nl +:+ "Выполнено успешно!")]) ;;
                    mret 0
                end
            end
        end
  end.

End Gorun.

(** ** Vocabulary of the properties *)

(** The input starts with the two bytes of the directive marker. *)
Definition startsWithMarker (code : list byte) : bool :=
  match code with
  | b0 :: b1 :: _ => Byte.eqb b0 x23 && Byte.eqb b1 x21
  | _ => false
  end.

(** The input starts with a directive line that is closed by a line
    feed: the one case in which [stripShebang] cuts. *)
Definition completeDirective (code : list byte) : bool :=
  hasShebang code
  && match afterNewline (drop 2 code) with Some _ => true | None => false end.

(** One line of a source excerpt: its number, marked when it is the
    line of the error, and its text. *)
Definition excerptLine (lines : list string) (errorLine num : Z) : list output :=
  [ Printf CodeNum Stdout
      (if num =? errorLine then "  → %d | " else "    %d | ") [AInt num];
    Println CodeLine Stdout [AStr (nth (Z.to_nat (num - 1)) lines "")] ].

(** The excerpt around [errorLine]: the lines numbered from one before
    to one after it, as far as the source has them. *)
Definition excerpt (lines : list string) (errorLine : Z) : list output :=
  let first := Z.max 1 (errorLine - 1) in
  let last := Z.min (Z.of_nat (length lines)) (errorLine + 1) in
  flat_map (excerptLine lines errorLine) (seqZ first (last - first + 1)).

(** Every byte of [s] is in the class [cls]. *)
Fixpoint allIn (cls : ascii -> bool) (s : string) : bool :=
  match s with
  | String c s' => cls c && allIn cls s'
  | EmptyString => true
  end.

(** What it is for a string to match a pattern from end to end, with
    the captured pieces: the meaning of a pattern, without any order of
    trial. *)
Inductive Matches : list atom -> string -> list string -> Prop :=
| Matches_end : Matches [] "" []
| Matches_lit (c : ascii) (pat : list atom) (s : string) (caps : list string) :
    Matches pat s caps -> Matches (Lit c :: pat) (String c s) caps
| Matches_rep (cls : ascii -> bool) (mn : nat) (cap : bool) (pat : list atom)
    (x s : string) (caps : list string) :
    allIn cls x = true -> (mn <= String.length x)%nat -> Matches pat s caps ->
    Matches (Rep cls mn cap :: pat) (x +:+ s) (if cap then x :: caps else caps).

(** A line of the shape file:line:column: message. *)
Definition errorShape (t file line col msg : string) : Prop :=
  exists ws : string,
    t = file +:+ ":" +:+ line +:+ ":" +:+ col +:+ ":" +:+ ws +:+ msg
    /\ file <> "" /\ allIn isDot file = true
    /\ line <> "" /\ allIn isDigit line = true
    /\ col <> "" /\ allIn isDigit col = true
    /\ allIn isPerlSpace ws = true
    /\ msg <> "" /\ allIn isDot msg = true.

(** What [parseGoErrors] prints for a line recognised as a diagnostic. *)
Definition diagnosticReport (sourceCode : list byte)
    (file : string) (lineNum : Z) (col errType description : string)
    : list output :=
  [ Printf ErrTitle Stdout ("%s" +:+ nl) [AStr errType];
    Printf ErrFile Stdout "   %s" [AStr file];
    Printf ErrLine Stdout ":%d" [AInt lineNum];
    Printf ErrHint Stdout (":%s" +:+ nl) [AStr col];
    Printf ErrMsg Stdout ("   %s" +:+ nl) [AStr description] ]
  ++ (if (0 <? length sourceCode)%nat
      then showSourceContext sourceCode lineNum else [])
  ++ [ Println Plain Stdout [] ].


(** The banner that ends a report with at least one diagnostic. *)
Definition failureBanner (found : bool) : list output :=
  if found then [ Printf Red Stdout (nl +:+ "Compilation failed") [] ] else [].

(** Any event but the creation of a temporary directory. *)
Definition notTemp (e : event) : Prop :=
  match e with
  | EvMkdirTemp _ _ => False
  | _ => True
  end.

(** [w'] comes after [w]: its trace is that of [w] with new events, all
    of them in [P], in front. *)
Definition extends (P : event -> Prop) (w w' : World) : Prop :=
  exists new, trace w' = new ++ trace w /\ Forall P new.

(** Every run of [m] only adds events that are in [P]. *)
Definition grows {A : Type} (P : event -> Prop) (m : M A) : Prop :=
  forall w, extends P w (snd (m w)).

(** Nothing is left at or below [dir]. *)
Definition nothingUnder (env : Env) (dir : string) (w : World) : Prop :=
  forall p, under env dir p = true -> fs w !! p = None.

(** Every temporary directory that a run of [m] created is removed by
    the last call of that run, and unless that call failed nothing is
    left of it. *)
Definition cleansUp {A : Type} (env : Env) (m : M A) : Prop :=
  forall w, exists new,
    trace (snd (m w)) = new ++ trace w
    /\ forall pattern tmpDir,
         In (EvMkdirTemp pattern (Ok tmpDir)) new ->
         exists r rest,
           new = EvCall (RemoveAll tmpDir) r :: rest
           /\ (r = None -> nothingUnder env tmpDir (snd (m w))).

(** ** A concrete host

    A Linux machine whose clock stands at [now], with a toolchain whose
    two steps fail on demand and whose build writes the binary. *)

Definition toolchain (now : Z) (tidyFails : bool) (buildStderr : option string)
    (history : list event) (c : command) (m : gmap string Node) : exec_result :=
  match cmd_args c with
  | ["mod"; "tidy"] =>
      if tidyFails then ExecResult (Some (ExitError "exit status 1")) "" m
      else ExecResult None "" m
  | ["build"; "-o"; out; "."] =>
      match buildStderr with
      | Some text => ExecResult (Some (ExitError "exit status 1")) text m
      | None => ExecResult None "" (<[out := File [] perm_0755 now]> m)
      end
  | _ => ExecResult None "" m
  end.

Definition noFault (history : list event) (c : syscall) : option error := None.

(** The write of meta.txt fails, and nothing else. *)
Definition metaFault (history : list event) (c : syscall) : option error :=
  match c with
  | WriteFile name _ _ =>
      if String.eqb name "/home/u/.cache/gogo/0123456789abcdef/meta.txt"
      then Some (SysError "write" name) else None
  | _ => None
  end.

Definition host (now : Z) (cacheRoot : result string)
    (faults : list event -> syscall -> option error)
    (tidyFails : bool) (buildStderr : option string) (input : string) : Env :=
  {| GOOS := "linux";
     Version := "go1.21.5";
     UserCacheDir := cacheRoot;
     TempDir := "/tmp";
     sha256_hex := fun _ => "0123456789abcdef0123456789abcdef0123456789abcdef0123456789abcdef";
     Sprintf := fun format _ => format;
     FormatRFC3339 := fun _ => "2026-01-01T00:00:00Z";
     clock := fun _ => now;
     fault := faults;
     randomName := fun _ => "42";
     run := toolchain now tidyFails buildStderr;
     stdin := Ok (list_byte_of_string input) |}.

Definition homeCache : result string := Ok "/home/u/.cache".
Definition entryDir : string := "/home/u/.cache/gogo/0123456789abcdef".
Definition entryBinary : string := "/home/u/.cache/gogo/0123456789abcdef/run".
Definition entrySource : string := "/home/u/.cache/gogo/0123456789abcdef/main.go".
Definition entryMeta : string := "/home/u/.cache/gogo/0123456789abcdef/meta.txt".

Definition emptyWorld : World := {| fs := ∅; trace := [] |}.

(** A cache that holds one binary, built at time [builtAt]. *)
Definition cachedWorld (builtAt : Z) : World :=
  {| fs := {[ entryBinary := File [] perm_0755 builtAt ]}; trace := [] |}.

Definition noFlags : Flags :=
  {| noCache := false; clearCache := false; showVersion := false; arg0 := "" |}.

(** Views of a trace, oldest event first: the commands that were run,
    the temporary directories that were made, what was printed to a
    stream. *)
Definition commandsRun (t : list event) : list command :=
  flat_map (fun e => match e with EvExec c _ => [c] | _ => [] end) (rev t).

Definition workspacesMade (t : list event) : list string :=
  flat_map (fun e => match e with EvMkdirTemp _ (Ok p) => [p] | _ => [] end)
    (rev t).

Definition streamOf (o : output) : stream :=
  match o with
  | Printf _ s _ _ => s
  | Println _ s _ => s
  end.

Definition sameStream (a b : stream) : bool :=
  match a, b with
  | Stdout, Stdout | Stderr, Stderr => true
  | _, _ => false
  end.

Definition printedTo (s : stream) (t : list event) : list output :=
  flat_map (fun e => match e with
                     | EvPrint o => if sameStream (streamOf o) s then [o] else []
                     | _ => []
                     end) (rev t).

(** A program that the Go compiler accepts and [validateCode] rejects:
    its first line opens with a block comment. *)
Definition blockCommentProgram : string :=
  "/* hi */ package main" +:+ nl +:+ "func main() {}".

(** A line that [validateCode] passes over: blank, or a line comment. *)
Definition skippable (text : string) : bool :=
  let line := TrimSpace text in
  String.eqb line "" || HasPrefix line "//".

Definition notHash (c : ascii) : bool := negb (Ascii.eqb c "#").

Definition notDot (c : ascii) : bool := negb (Ascii.eqb c ".").

(** The notice that ends a report with diagnostics. *)
Definition compilationFailed : output :=
  Printf Red Stdout (nl +:+ "Compilation failed") [].

(** The line is, once trimmed, a diagnostic of the compiler. *)
Definition isDiagnostic (line : string) : Prop :=
  TrimSpace line <> ""
  /\ exists file lnum col msg, errorShape (TrimSpace line) file lnum col msg.

(** ** The shapes of a run

    [post m w Q]: the result and the world that [m] leaves, started in
    [w], satisfy [Q]. *)
Definition post {A : Type} (m : M A) (w : World) (Q : A -> World -> Prop) : Prop :=
  Q (fst (m w)) (snd (m w)).

Definition goModBytes (env : Env) : list byte :=
  list_byte_of_string
    (Sprintf env ("module gogo-main" +:+ nl +:+ nl +:+ "go %s" +:+ nl)
       [AStr (moduleGoVersion env)]).

Definition metaBytes (env : Env) (now : Z) : list byte :=
  list_byte_of_string
    (Sprintf env ("Built: %s" +:+ nl +:+ "Go: %s" +:+ nl)
       [AStr (FormatRFC3339 env now); AStr (Version env)]).

Definition tidyCmd (tmpDir : string) : command :=
  Command "go" ["mod"; "tidy"] tmpDir.

Definition buildCmd (binaryPath tmpDir : string) : command :=
  Command "go" ["build"; "-o"; binaryPath; "."] tmpDir.

(** The events of [runCached] on a miss up to the temporary directory,
    oldest first. *)
Definition missEvents (env : Env) (code : list byte)
    (cacheDir binaryPath : string) (st : option error) : list event :=
  [ EvCall (Stat binaryPath) st;
    EvCall (MkdirAll cacheDir perm_0755) None;
    EvCall (WriteFile (Join env [cacheDir; "main.go"]) code perm_0644) None ].

(** The events of [createModule] when both files are written. *)
Definition moduleEvents (env : Env) (code : list byte) (tmpDir : string)
    : list event :=
  [ EvCall (WriteFile (Join env [tmpDir; "go.mod"]) (goModBytes env) perm_0644) None;
    EvCall (WriteFile (Join env [tmpDir; "main.go"]) code perm_0644) None ].

(** The events of a rebuild from the temporary directory to the end of
    go mod tidy. *)
Definition tidyEvents (env : Env) (code : list byte) (tmpDir : string)
    (tidyErr : option error) : list event :=
  EvMkdirTemp "gogo-build-*" (Ok tmpDir)
  :: moduleEvents env code tmpDir
  ++ [ EvPrint (Printf Yellow Stdout "First run: downloading dependencies..." []);
       EvExec (tidyCmd tmpDir) tidyErr ].

(** The events of a rebuild from the temporary directory to the end of
    go build. *)
Definition buildEvents (env : Env) (code : list byte)
    (binaryPath tmpDir : string) (buildErr : option error) : list event :=
  tidyEvents env code tmpDir None
  ++ [ EvPrint (Printf Yellow Stdout "Building..." []);
       EvExec (buildCmd binaryPath tmpDir) buildErr ].

(** The runs of [runCached]: its result and its events, oldest first.
    There are ten shapes: the hit, and on a miss one shape for each step
    that can end the run. *)
Inductive CachedRun (env : Env) (code : list byte) (cacheDir binaryPath : string)
    : option error -> list event -> Prop :=
| Run_hit (r : option error) :
    CachedRun env code cacheDir binaryPath r
      [ EvCall (Stat binaryPath) None;
        EvPrint (Printf Yellow Stdout "Using cached binary" []);
        EvExec (Command binaryPath [] "") r ]
| Run_mkdir_fails (st : option error) (e : error) :
    CachedRun env code cacheDir binaryPath (Some e)
      [ EvCall (Stat binaryPath) st;
        EvCall (MkdirAll cacheDir perm_0755) (Some e) ]
| Run_copy_fails (st : option error) (e : error) :
    CachedRun env code cacheDir binaryPath (Some e)
      [ EvCall (Stat binaryPath) st;
        EvCall (MkdirAll cacheDir perm_0755) None;
        EvCall (WriteFile (Join env [cacheDir; "main.go"]) code perm_0644) (Some e) ]
| Run_temp_fails (st : option error) (e : error) :
    CachedRun env code cacheDir binaryPath (Some e)
      (missEvents env code cacheDir binaryPath st
       ++ [ EvMkdirTemp "gogo-build-*" (Fail e) ])
| Run_gomod_fails (st : option error) (tmpDir : string) (e : error)
    (rr : option error) :
    CachedRun env code cacheDir binaryPath (Some e)
      (missEvents env code cacheDir binaryPath st
       ++ [ EvMkdirTemp "gogo-build-*" (Ok tmpDir);
            EvCall (WriteFile (Join env [tmpDir; "go.mod"]) (goModBytes env)
                      perm_0644) (Some e);
            EvCall (RemoveAll tmpDir) rr ])
| Run_maingo_fails (st : option error) (tmpDir : string) (e : error)
    (rr : option error) :
    CachedRun env code cacheDir binaryPath (Some e)
      (missEvents env code cacheDir binaryPath st
       ++ [ EvMkdirTemp "gogo-build-*" (Ok tmpDir);
            EvCall (WriteFile (Join env [tmpDir; "go.mod"]) (goModBytes env)
                      perm_0644) None;
            EvCall (WriteFile (Join env [tmpDir; "main.go"]) code perm_0644)
              (Some e);
            EvCall (RemoveAll tmpDir) rr ])
| Run_tidy_fails (st : option error) (tmpDir : string) (err : error)
    (rr : option error) :
    CachedRun env code cacheDir binaryPath
      (Some (Errorf "go mod tidy failed: %w" [AErr err]))
      (missEvents env code cacheDir binaryPath st
       ++ tidyEvents env code tmpDir (Some err)
       ++ [ EvCall (RemoveAll tmpDir) rr ])
| Run_build_fails_silent (st : option error) (tmpDir : string) (err : error)
    (rc rr : option error) :
    CachedRun env code cacheDir binaryPath
      (Some (Errorf "build failed: %v" [AErr err]))
      (missEvents env code cacheDir binaryPath st
       ++ buildEvents env code binaryPath tmpDir (Some err)
       ++ [ EvCall (RemoveAll cacheDir) rc; EvCall (RemoveAll tmpDir) rr ])
| Run_build_fails (st : option error) (tmpDir : string) (err : error)
    (stderr : string) (rc rr : option error) :
    stderr <> "" ->
    CachedRun env code cacheDir binaryPath
      (Some (Errorf "compilation failed" []))
      (missEvents env code cacheDir binaryPath st
       ++ buildEvents env code binaryPath tmpDir (Some err)
       ++ map EvPrint (parseGoErrors stderr code)
       ++ [ EvCall (RemoveAll cacheDir) rc; EvCall (RemoveAll tmpDir) rr ])
| Run_built (st : option error) (tmpDir : string) (chmod : list event)
    (now : Z) (rm r rr : option error) :
    (if String.eqb (GOOS env) "windows" then chmod = []
     else exists rc, chmod = [EvCall (Chmod binaryPath perm_0755) rc]) ->
    CachedRun env code cacheDir binaryPath r
      (missEvents env code cacheDir binaryPath st
       ++ buildEvents env code binaryPath tmpDir None
       ++ chmod
       ++ [ EvCall (WriteFile (Join env [cacheDir; "meta.txt"]) (metaBytes env now)
                      perm_0644) rm;
            EvExec (Command binaryPath [] "") r;
            EvCall (RemoveAll tmpDir) rr ]).

(** What every run of [runCached] from [w0] satisfies: its new events
    have one of the shapes of [CachedRun], and a removal of the entry
    directory that returned no error has left nothing of it. *)
Definition cachedPost (env : Env) (code : list byte) (cacheDir binaryPath : string)
    (w0 : World) (r : option error) (w' : World) : Prop :=
  exists new,
    trace w' = new ++ trace w0
    /\ CachedRun env code cacheDir binaryPath r (rev new)
    /\ forall rr, In (EvCall (RemoveAll cacheDir) rr) new -> rr = None ->
                  cacheDir <> "" -> nothingUnder env cacheDir w'.

(** The runs of [runOnce]: its result and its events, oldest first. *)
Inductive OnceRun (env : Env) (code : list byte) : option error -> list event -> Prop :=
| Once_temp_fails (e : error) :
    OnceRun env code (Some e) [ EvMkdirTemp "gogo-once-*" (Fail e) ]
| Once_gomod_fails (tmpDir : string) (e : error) (rr : option error) :
    OnceRun env code (Some e)
      [ EvMkdirTemp "gogo-once-*" (Ok tmpDir);
        EvCall (WriteFile (Join env [tmpDir; "go.mod"]) (goModBytes env) perm_0644)
          (Some e);
        EvCall (RemoveAll tmpDir) rr ]
| Once_maingo_fails (tmpDir : string) (e : error) (rr : option error) :
    OnceRun env code (Some e)
      [ EvMkdirTemp "gogo-once-*" (Ok tmpDir);
        EvCall (WriteFile (Join env [tmpDir; "go.mod"]) (goModBytes env) perm_0644)
          None;
        EvCall (WriteFile (Join env [tmpDir; "main.go"]) code perm_0644) (Some e);
        EvCall (RemoveAll tmpDir) rr ]
| Once_tidy_fails (tmpDir : string) (err : error) (rr : option error) :
    OnceRun env code (Some (Errorf "go mod tidy failed: %w" [AErr err]))
      (EvMkdirTemp "gogo-once-*" (Ok tmpDir)
       :: moduleEvents env code tmpDir
       ++ [ EvPrint (Println Plain Stderr [AStr "Checking dependencies..."]);
            EvExec (tidyCmd tmpDir) (Some err);
            EvCall (RemoveAll tmpDir) rr ])
| Once_ran (tmpDir : string) (r rr : option error) :
    OnceRun env code r
      (EvMkdirTemp "gogo-once-*" (Ok tmpDir)
       :: moduleEvents env code tmpDir
       ++ [ EvPrint (Println Plain Stderr [AStr "Checking dependencies..."]);
            EvExec (tidyCmd tmpDir) None;
            EvPrint (Println Plain Stderr [AStr "Running without cache..."]);
            EvExec (Command "go" ["run"; "."] tmpDir) r;
            EvCall (RemoveAll tmpDir) rr ]).

(** The world in which the runner under cmd/ starts its build: the
    source has been echoed to standard output. *)
Definition gorunEcho (code : list byte) (w1 : World) : World :=
  {| fs := fs w1;
     trace :=
       EvPrint (Println Plain Stdout [AStr (string_of_list_byte code)])
       :: EvPrint (Println Plain Stdout [AStr "────────────────────"])
       :: EvPrint (Printf Plain Stdout ("Получен код (%d байт):" +:+ nl)
                     [AInt (Z.of_nat (length code))])
       :: trace w1 |}.

(** * Properties *)

(** ** The source normalizer *)

Lemma afterNewline_shorter (l r : list byte) :
  afterNewline l = Some r -> (length r < length l)%nat.
Proof.
  revert r; induction l as [|b l IH]; intros r H; simpl in *; [discriminate|].
  destruct (Byte.eqb b byte_nl).
  - injection H as <-. lia.
  - specialize (IH _ H). lia.
Qed.

Lemma hasShebang_marker (code : list byte) :
  hasShebang code = true -> startsWithMarker code = true.
Proof.
  destruct code as [|b0 [|b1 [|b2 l]]]; simpl; congruence.
Qed.

Lemma stripShebang_unmarked (code : list byte) :
  startsWithMarker code = false -> stripShebang code = (code, None).
Proof.
  intros H. unfold stripShebang.
  destruct (hasShebang code) eqn:E; [|reflexivity].
  apply hasShebang_marker in E. congruence.
Qed.

Lemma stripShebang_fixed_iff (code : list byte) :
  fst (stripShebang code) = code <-> completeDirective code = false.
Proof.
  unfold stripShebang, completeDirective.
  destruct (hasShebang code) eqn:E; simpl; [|tauto].
  destruct (afterNewline (drop 2 code)) as [rest|] eqn:A; simpl.
  - split; [|discriminate].
    intros ->. apply afterNewline_shorter in A.
    rewrite length_drop in A. lia.
  - split; reflexivity.
Qed.

(** C7, the claim as written fails: a source with two directive lines
    loses the first at the first application and the second at the
    next. *)
Lemma stripShebang_twice_differs :
  let code := list_byte_of_string ("#!a" +:+ nl +:+ "#!b" +:+ nl +:+ "c") in
  fst (stripShebang code) = list_byte_of_string ("#!b" +:+ nl +:+ "c")
  /\ fst (stripShebang (fst (stripShebang code))) = list_byte_of_string "c"
  /\ snd (stripShebang code) = None
  /\ fst (stripShebang (fst (stripShebang code))) <> fst (stripShebang code).
Proof. vm_compute. repeat split. discriminate. Qed.

(** C7, amended: [stripShebang] returns its input unchanged, with no
    error, when the input does not start with the marker; and a second
    application leaves the result of the first unchanged exactly when
    that result does not itself start with a closed directive line. *)
Theorem stripShebang_noop_and_second_application (code : list byte) :
  (startsWithMarker code = false -> stripShebang code = (code, None))
  /\ (fst (stripShebang (fst (stripShebang code))) = fst (stripShebang code)
      <-> completeDirective (fst (stripShebang code)) = false).
Proof.
  split.
  - apply stripShebang_unmarked.
  - apply stripShebang_fixed_iff.
Qed.

Lemma stripShebang_noop_and_second_application_witness :
  stripShebang (list_byte_of_string "package main")
    = (list_byte_of_string "package main", None)
  /\ fst (stripShebang (fst (stripShebang
            (list_byte_of_string ("#!/usr/bin/env gogo" +:+ nl +:+ "package main")))))
     = fst (stripShebang
              (list_byte_of_string ("#!/usr/bin/env gogo" +:+ nl +:+ "package main"))).
Proof.
  split.
  - apply (proj1 (stripShebang_noop_and_second_application
                    (list_byte_of_string "package main"))).
    reflexivity.
  - apply (proj2 (stripShebang_noop_and_second_application
                    (list_byte_of_string
                       ("#!/usr/bin/env gogo" +:+ nl +:+ "package main")))).
    reflexivity.
Defined.

(** ** The source excerpt *)

Lemma wrap64_small (z : Z) : int64_range z -> wrap64 z = z.
Proof.
  unfold int64_range, minInt64, maxInt64, wrap64. intros H.
  rewrite Z.mod_small; lia.
Qed.

Lemma showSourceContext_loop_spec (lines : list string) (errorLine : Z) :
  forall (fuel : nat) (i end_ : Z),
    0 <= i -> i <= end_ -> end_ <= Z.of_nat (length lines) ->
    end_ <= maxInt64 -> fuel = Z.to_nat (end_ - i) ->
    showSourceContext_loop fuel lines errorLine i end_
    = Some (flat_map (excerptLine lines errorLine) (seqZ (i + 1) (end_ - i))).
Proof.
  induction fuel as [|fuel IH]; intros i end_ Hi Hle Hlen Hmax Hfuel.
  - assert (end_ = i) as -> by lia. rewrite Z.sub_diag. reflexivity.
  - assert (i < end_) as Hlt by lia.
    cbn [showSourceContext_loop].
    destruct (Z.ltb_spec i end_) as [_|]; [|lia].
    destruct (Z.ltb_spec i 0) as [|_]; [lia|].
    assert (wrap64 (i + 1) = i + 1) as ->.
    { apply wrap64_small. unfold int64_range, minInt64, maxInt64 in *. lia. }
    destruct (lines !! Z.to_nat i) as [l|] eqn:El.
    2:{ apply lookup_ge_None in El. lia. }
    rewrite (IH (i + 1) end_) by lia.
    rewrite (seqZ_cons (i + 1) (end_ - i)) by lia.
    cbn [flat_map]. f_equal.
    replace (Z.succ (i + 1)) with (i + 1 + 1) by lia.
    replace (Z.pred (end_ - i)) with (end_ - (i + 1)) by lia.
    unfold excerptLine at 2.
    replace (i + 1 - 1) with i by lia.
    rewrite (nth_lookup_Some _ _ _ _ El).
    destruct (i + 1 =? errorLine); reflexivity.
Qed.

Lemma showSourceContext_run_spec (source : list byte) (errorLine : Z) :
  let lines := Split (string_of_list_byte source) newline in
  Z.of_nat (length lines) < maxInt64 ->
  showSourceContext_run source errorLine
  = Some (if (1 <=? errorLine) && (errorLine <=? Z.of_nat (length lines))
          then excerpt lines errorLine else []).
Proof.
  intros lines Hlen. unfold showSourceContext_run. fold lines.
  destruct (Z.ltb_spec errorLine 1) as [H1|H1]; cbn [orb].
  { destruct (Z.leb_spec 1 errorLine); [lia|]. reflexivity. }
  destruct (Z.ltb_spec (Z.of_nat (length lines)) errorLine) as [H2|H2].
  { destruct (Z.leb_spec errorLine (Z.of_nat (length lines))); [lia|].
    rewrite andb_false_r. reflexivity. }
  destruct (Z.leb_spec 1 errorLine); [|lia].
  destruct (Z.leb_spec errorLine (Z.of_nat (length lines))); [|lia].
  cbn [andb].
  assert (wrap64 (errorLine - 2) = errorLine - 2) as ->.
  { apply wrap64_small. unfold int64_range, minInt64, maxInt64 in *. lia. }
  assert (wrap64 (errorLine + 1) = errorLine + 1) as ->.
  { apply wrap64_small. unfold int64_range, minInt64, maxInt64 in *. lia. }
  set (start := if errorLine - 2 <? 0 then 0 else errorLine - 2).
  set (end_ := if Z.of_nat (length lines) <? errorLine + 1
               then Z.of_nat (length lines) else errorLine + 1).
  assert (start = Z.max 1 (errorLine - 1) - 1) as Hs.
  { unfold start. destruct (Z.ltb_spec (errorLine - 2) 0); lia. }
  assert (end_ = Z.min (Z.of_nat (length lines)) (errorLine + 1)) as He.
  { unfold end_. destruct (Z.ltb_spec (Z.of_nat (length lines)) (errorLine + 1)); lia. }
  rewrite (showSourceContext_loop_spec lines errorLine _ start end_) by lia.
  unfold excerpt. do 3 f_equal; lia.
Qed.

Lemma showSourceContext_total (source : list byte) (errorLine : Z) :
  Z.of_nat (length (Split (string_of_list_byte source) newline)) < maxInt64 ->
  showSourceContext_run source errorLine
  = Some (showSourceContext source errorLine).
Proof.
  intros H. unfold showSourceContext.
  rewrite (showSourceContext_run_spec source errorLine H). reflexivity.
Qed.

(** C8: with [n] the number of lines of the source, a line number from
    1 to [n] prints the excerpt from one line before to one line after
    it, clipped to 1..[n], the line of the error marked with the arrow;
    any other line number prints nothing; and neither case panics. *)
Theorem showSourceContext_excerpt (source : list byte) (errorLine : Z) :
  let lines := Split (string_of_list_byte source) newline in
  let n := Z.of_nat (length lines) in
  n < maxInt64 ->
  showSourceContext_run source errorLine = Some (showSourceContext source errorLine)
  /\ (1 <= errorLine <= n ->
      showSourceContext source errorLine
      = flat_map (excerptLine lines errorLine)
          (seqZ (Z.max 1 (errorLine - 1))
             (Z.min n (errorLine + 1) - Z.max 1 (errorLine - 1) + 1)))
  /\ (errorLine < 1 \/ n < errorLine -> showSourceContext source errorLine = []).
Proof.
  intros lines n Hn. split; [apply showSourceContext_total; exact Hn|].
  unfold showSourceContext.
  rewrite (showSourceContext_run_spec source errorLine Hn). fold lines n.
  split.
  - intros [H1 H2].
    destruct (Z.leb_spec 1 errorLine); [|lia].
    destruct (Z.leb_spec errorLine n); [|lia]. reflexivity.
  - intros H.
    destruct (Z.leb_spec 1 errorLine); [|reflexivity].
    destruct (Z.leb_spec errorLine n); [lia|reflexivity].
Qed.

Lemma showSourceContext_excerpt_witness :
  showSourceContext
    (list_byte_of_string ("package main" +:+ nl +:+ "func main() {" +:+ nl
                          +:+ "  x := 1" +:+ nl +:+ "}")) 3
  = [ Printf CodeNum Stdout "    %d | " [AInt 2];
      Println CodeLine Stdout [AStr "func main() {"];
      Printf CodeNum Stdout "  → %d | " [AInt 3];
      Println CodeLine Stdout [AStr "  x := 1"];
      Printf CodeNum Stdout "    %d | " [AInt 4];
      Println CodeLine Stdout [AStr "}"] ]
  /\ showSourceContext
       (list_byte_of_string ("package main" +:+ nl +:+ "func main() {" +:+ nl
                             +:+ "  x := 1" +:+ nl +:+ "}")) 5 = [].
Proof.
  split.
  - etransitivity.
    + apply (proj1 (proj2 (showSourceContext_excerpt
        (list_byte_of_string ("package main" +:+ nl +:+ "func main() {" +:+ nl
                              +:+ "  x := 1" +:+ nl +:+ "}")) 3 eq_refl))).
      vm_compute. split; discriminate.
    + vm_compute. reflexivity.
  - apply (proj2 (proj2 (showSourceContext_excerpt
        (list_byte_of_string ("package main" +:+ nl +:+ "func main() {" +:+ nl
                              +:+ "  x := 1" +:+ nl +:+ "}")) 5 eq_refl))).
    right. vm_compute. reflexivity.
Defined.

(** ** Strings and patterns *)

Lemma append_cons (c : ascii) (s t : string) :
  String c s +:+ t = String c (s +:+ t).
Proof. reflexivity. Qed.

Lemma append_empty_l (t : string) : "" +:+ t = t.
Proof. reflexivity. Qed.

Lemma slice_to_from (s : string) (n : nat) : slice_to s n +:+ slice_from s n = s.
Proof.
  revert s; induction n as [|n IH]; intros [|c s]; try reflexivity.
  cbn [slice_to slice_from]. rewrite append_cons, IH. reflexivity.
Qed.

Lemma slice_to_span (cls : ascii -> bool) (s : string) (n : nat) :
  (n <= spanLen cls s)%nat ->
  allIn cls (slice_to s n) = true /\ String.length (slice_to s n) = n.
Proof.
  revert s; induction n as [|n IH]; intros [|c s] H; cbn in *;
    try (split; reflexivity); try lia.
  destruct (cls c) eqn:E; [|cbn in H; lia].
  destruct (IH s) as [H1 H2]; [cbn in H; lia|].
  cbn. rewrite H1, H2. split; reflexivity.
Qed.

Lemma span_of_allIn (cls : ascii -> bool) (x s : string) :
  allIn cls x = true -> (String.length x <= spanLen cls (x +:+ s))%nat.
Proof.
  induction x as [|c x IH]; intros H; cbn in *; [lia|].
  apply andb_prop in H as [Hc Hx].
  rewrite append_cons. cbn. rewrite Hc. specialize (IH Hx). lia.
Qed.

Lemma slice_from_append (x s : string) : slice_from (x +:+ s) (String.length x) = s.
Proof.
  induction x as [|c x IH]; cbn.
  - destruct s; reflexivity.
  - rewrite append_cons. exact IH.
Qed.

Lemma tryLens_Some {A : Type} (k : nat -> option A) (n : nat) (r : A) :
  tryLens k n = Some r -> exists m, (m <= n)%nat /\ k m = Some r.
Proof.
  induction n as [|n IH]; cbn; destruct (k _) eqn:E; intros H.
  - injection H as <-. eauto.
  - discriminate.
  - injection H as <-. eauto.
  - destruct (IH H) as (m & Hm & Hk). eauto.
Qed.

Lemma tryLens_is_Some {A : Type} (k : nat -> option A) (n m : nat) :
  (m <= n)%nat -> is_Some (k m) -> is_Some (tryLens k n).
Proof.
  intros Hm Hk. induction n as [|n IH]; cbn.
  - assert (m = O) as -> by lia. destruct (k O); [eauto|exact Hk].
  - destruct (k (S n)) eqn:E; [eauto|].
    apply IH. destruct (decide (m = S n)) as [->|]; [|lia].
    rewrite E in Hk. destruct Hk; discriminate.
Qed.

Lemma matchAtoms_sound (pat : list atom) :
  forall (s : string) (caps : list string),
    matchAtoms pat s = Some caps -> Matches pat s caps.
Proof.
  induction pat as [|[c|cls mn cap] pat IH]; intros s caps H; cbn in H.
  - destruct s; [|discriminate]. injection H as <-. constructor.
  - destruct s as [|x s]; [discriminate|].
    destruct (Ascii.eqb_spec x c) as [->|]; [|discriminate].
    constructor. auto.
  - apply tryLens_Some in H as (n & Hn & H).
    destruct (Nat.leb_spec mn n) as [Hmn|]; [|discriminate].
    destruct (matchAtoms pat (slice_from s n)) as [caps'|] eqn:E; [|discriminate].
    injection H as <-.
    destruct (slice_to_span cls s n Hn) as [Hall Hlen].
    rewrite <- (slice_to_from s n) at 1.
    constructor; [exact Hall|lia|auto].
Qed.

Lemma matchAtoms_complete (pat : list atom) (s : string) (caps : list string) :
  Matches pat s caps -> is_Some (matchAtoms pat s).
Proof.
  induction 1 as [|c pat s caps _ IH|cls mn cap pat x s caps Hall Hmn _ IH]; cbn.
  - eauto.
  - rewrite Ascii.eqb_refl. exact IH.
  - apply (tryLens_is_Some _ _ (String.length x)).
    + apply span_of_allIn, Hall.
    + destruct (Nat.leb_spec mn (String.length x)); [|lia].
      rewrite slice_from_append. destruct IH as [caps' ->]. eauto.
Qed.

Lemma length_pos_nonempty (x : string) : (1 <= String.length x)%nat <-> x <> "".
Proof.
  destruct x; cbn; split; intros H; try lia; try congruence.
Qed.

Lemma Matches_errorPattern (t : string) (caps : list string) :
  Matches errorPattern t caps
  <-> exists file line col msg,
        caps = [file; line; col; msg] /\ errorShape t file line col msg.
Proof.
  unfold errorPattern, errorShape. split.
  - intros H.
    inversion H as [| |? ? ? ? file s1 caps1 Hf Hfl H1]; subst; clear H.
    inversion H1 as [|? ? s2 ? H2|]; subst; clear H1.
    inversion H2 as [| |? ? ? ? line s3 caps3 Hl Hll H3]; subst; clear H2.
    inversion H3 as [|? ? s4 ? H4|]; subst; clear H3.
    inversion H4 as [| |? ? ? ? col s5 caps5 Hc Hcl H5]; subst; clear H4.
    inversion H5 as [|? ? s6 ? H6|]; subst; clear H5.
    inversion H6 as [| |? ? ? ? ws s7 caps7 Hw Hwl H7]; subst; clear H6.
    inversion H7 as [| |? ? ? ? msg s8 caps8 Hm Hml H8]; subst; clear H7.
    inversion H8; subst; clear H8.
    exists file, line, col, msg. split; [reflexivity|].
    exists ws. rewrite !append_cons, !append_empty_l.
    rewrite length_pos_nonempty in Hfl, Hll, Hcl, Hml.
    replace (msg +:+ "") with msg.
    2:{ clear. induction msg as [|c m IH]; [reflexivity|].
        rewrite append_cons, <- IH. reflexivity. }
    repeat split; assumption.
  - intros (file & line & col & msg & -> & ws & -> & Hf & Hfa & Hl & Hla
            & Hc & Hca & Hw & Hm & Hma).
    rewrite <- length_pos_nonempty in Hf, Hl, Hc, Hm.
    replace msg with (msg +:+ "") at 1.
    2:{ clear. induction msg as [|c m IH]; [reflexivity|].
        rewrite append_cons, IH. reflexivity. }
    apply (Matches_rep isDot 1 true); [assumption..|].
    rewrite append_cons, append_empty_l. apply Matches_lit.
    apply (Matches_rep isDigit 1 true); [assumption..|].
    rewrite append_cons, append_empty_l. apply Matches_lit.
    apply (Matches_rep isDigit 1 true); [assumption..|].
    rewrite append_cons, append_empty_l. apply Matches_lit.
    apply (Matches_rep isPerlSpace 0 false); [assumption|lia|].
    apply (Matches_rep isDot 1 true); [assumption..|].
    apply Matches_end.
Qed.

(** [FindStringSubmatch] on [errorPattern] returns five strings, the
    line and four pieces that give it the shape, or nothing. *)
Lemma FindStringSubmatch_errorPattern (t : string) :
  (exists file line col msg,
      FindStringSubmatch errorPattern t = [t; file; line; col; msg]
      /\ errorShape t file line col msg)
  \/ (FindStringSubmatch errorPattern t = []
      /\ forall file line col msg, ~ errorShape t file line col msg).
Proof.
  unfold FindStringSubmatch.
  destruct (matchAtoms errorPattern t) as [caps|] eqn:E.
  - left. apply matchAtoms_sound, Matches_errorPattern in E
      as (file & line & col & msg & -> & Hs).
    exists file, line, col, msg. split; [reflexivity|exact Hs].
  - right. split; [reflexivity|]. intros file line col msg Hs.
    assert (Matches errorPattern t [file; line; col; msg]) as HM.
    { apply Matches_errorPattern. eauto 10. }
    apply matchAtoms_complete in HM as [caps HM]. congruence.
Qed.

(** ** [splitErrorType] *)

Lemma prefix_colon (s : string) :
  String.prefix ":" s = match s with String c _ => Ascii.eqb c ":" | _ => false end.
Proof.
  destruct s as [|c s]; [reflexivity|]. cbn [String.prefix].
  destruct (ascii_dec ":" c) as [<-|Hne].
  - destruct s; reflexivity.
  - symmetry. apply Ascii.eqb_neq. congruence.
Qed.


Lemma Index_from_colon_split (s : string) (i : Z) :
  let j := Index_from s ":" i in
  j = -1
  \/ (i <= j
      /\ s = slice_to s (Z.to_nat (j - i)) +:+ ":"
             +:+ slice_from s (Z.to_nat (j - i + 1))).
Proof.
  revert i; induction s as [|c s IH]; intros i; cbn zeta.
  - left. reflexivity.
  - cbn [Index_from]. rewrite prefix_colon.
    destruct (Ascii.eqb_spec c ":") as [->|Hne].
    + right. split; [lia|]. rewrite Z.sub_diag.
      change (Z.to_nat 0) with O. change (Z.to_nat (0 + 1)) with 1%nat.
      cbn [slice_to slice_from]. destruct s; reflexivity.
    + destruct (IH (i + 1)) as [H|[Hle Hs]]; [left; lia|].
      right. split; [lia|].
      replace (Z.to_nat (Index_from s ":" (i + 1) - i))
        with (S (Z.to_nat (Index_from s ":" (i + 1) - (i + 1)))) by lia.
      replace (Z.to_nat (Index_from s ":" (i + 1) - i + 1))
        with (S (Z.to_nat (Index_from s ":" (i + 1) - (i + 1) + 1))) by lia.
      cbn [slice_to slice_from]. rewrite append_cons. f_equal. exact Hs.
Qed.




Lemma existsb_knownTypes (tok : string) :
  existsb (String.eqb tok) knownTypes = true -> In tok knownTypes.
Proof.
  intros H. apply existsb_exists in H as (x & Hin & Heq).
  apply String.eqb_eq in Heq. subst. exact Hin.
Qed.


Lemma splitErrorType_cases (msg : string) :
  splitErrorType msg = ("error", msg)
  \/ exists tok rest,
       In tok knownTypes /\ msg = tok +:+ ":" +:+ rest
       /\ splitErrorType msg = (tok, TrimSpace rest).
Proof.
  unfold splitErrorType, Index.
  destruct (Z.ltb_spec 0 (Index_from msg ":" 0)) as [Hpos|]; [|left; reflexivity].
  destruct (existsb _ knownTypes) eqn:Hex; [|left; reflexivity].
  right. destruct (Index_from_colon_split msg 0) as [H|[_ Hs]]; [lia|].
  cbn zeta in Hs. rewrite Z.sub_0_r in Hs.
  eexists _, _. split; [apply existsb_knownTypes, Hex|].
  split; [exact Hs|reflexivity].
Qed.

(** ** [parseGoErrors] *)

Lemma splitSign_digit (c : ascii) (r : string) :
  isDigit c = true -> splitSign (String c r) = (false, String c r).
Proof.
  destruct c as [[] [] [] [] [] [] [] []]; intros H; try reflexivity;
    vm_compute in H; discriminate.
Qed.

Lemma allDigits_allIn (s : string) : allDigits s = allIn isDigit s.
Proof. induction s as [|c s IH]; cbn; [reflexivity|]. rewrite IH. reflexivity. Qed.

(** The line number of a diagnostic: the decimal value of its digits,
    or the largest [int] when that value does not fit. *)
Lemma Atoi_digits (l : string) :
  l <> "" -> allDigits l = true ->
  fst (Atoi l) = Z.min (digitsValue l 0) maxInt64.
Proof.
  intros Hne Hd. destruct l as [|c l]; [congruence|].
  pose proof Hd as Hd'. cbn [allDigits] in Hd'. apply andb_prop in Hd' as [Hc _].
  unfold Atoi. rewrite (splitSign_digit c l Hc), Hd. cbn [String.eqb orb negb].
  destruct (Z.leb_spec (digitsValue (String c l) 0) maxInt64); cbn [fst]; lia.
Qed.

Lemma parseGoErrors_loop_spec (sourceCode : list byte) (lines : list string) :
  forall found : bool,
    parseGoErrors_loop sourceCode lines found
    = (existsb (fun l => fst (parseGoErrors_line sourceCode l)) lines || found,
       flat_map (fun l => snd (parseGoErrors_line sourceCode l)) lines).
Proof.
  induction lines as [|line rest IH]; intros found; [reflexivity|].
  cbn [parseGoErrors_loop existsb flat_map].
  destruct (parseGoErrors_line sourceCode line) as [f out].
  rewrite IH. cbn [fst snd]. f_equal.
  destruct f, (existsb _ rest), found; reflexivity.
Qed.

Lemma parseGoErrors_spec (rawOutput : string) (sourceCode : list byte) :
  parseGoErrors rawOutput sourceCode
  = flat_map (fun l => snd (parseGoErrors_line sourceCode l))
      (Split rawOutput newline)
    ++ failureBanner
         (existsb (fun l => fst (parseGoErrors_line sourceCode l))
            (Split rawOutput newline)).
Proof.
  unfold parseGoErrors. rewrite parseGoErrors_loop_spec, orb_false_r.
  reflexivity.
Qed.

Lemma parseGoErrors_line_blank (sourceCode : list byte) (line : string) :
  TrimSpace line = "" -> parseGoErrors_line sourceCode line = (false, []).
Proof. intros H. unfold parseGoErrors_line. rewrite H. reflexivity. Qed.

Lemma parseGoErrors_line_diagnostic (sourceCode : list byte) (line : string) :
  TrimSpace line <> "" ->
  (exists file lnum col msg, errorShape (TrimSpace line) file lnum col msg) ->
  exists file lnum col msg,
    errorShape (TrimSpace line) file lnum col msg
    /\ parseGoErrors_line sourceCode line
       = (true,
          diagnosticReport sourceCode file
            (Z.min (digitsValue lnum 0) maxInt64) col
            (fst (splitErrorType msg)) (snd (splitErrorType msg))).
Proof.
  intros Hne (file0 & l0 & c0 & m0 & Hshape).
  destruct (FindStringSubmatch_errorPattern (TrimSpace line))
    as [(file & lnum & col & msg & Hm & Hs)|[_ Hno]].
  2:{ exfalso. exact (Hno _ _ _ _ Hshape). }
  exists file, lnum, col, msg. split; [exact Hs|].
  unfold parseGoErrors_line.
  apply String.eqb_neq in Hne. rewrite Hne, Hm.
  cbn [length Nat.eqb negb nth].
  destruct Hs as (ws & _ & _ & _ & Hl & Hld & _).
  rewrite <- allDigits_allIn in Hld. rewrite (Atoi_digits lnum Hl Hld).
  destruct (splitErrorType msg) as [errType description]. reflexivity.
Qed.

Lemma parseGoErrors_line_passthrough (sourceCode : list byte) (line : string) :
  TrimSpace line <> "" ->
  (forall file lnum col msg, ~ errorShape (TrimSpace line) file lnum col msg) ->
  parseGoErrors_line sourceCode line
  = (false, [Println Plain Stdout [AStr (TrimSpace line)]]).
Proof.
  intros Hne Hno.
  destruct (FindStringSubmatch_errorPattern (TrimSpace line))
    as [(file & lnum & col & msg & _ & Hs)|[Hm _]].
  { exfalso. exact (Hno _ _ _ _ Hs). }
  unfold parseGoErrors_line.
  apply String.eqb_neq in Hne. rewrite Hne, Hm. reflexivity.
Qed.




(** ** Runs and their traces *)

Lemma extends_refl (P : event -> Prop) (w : World) : extends P w w.
Proof. exists []. split; [reflexivity|constructor]. Qed.

Lemma extends_trans (P : event -> Prop) (w1 w2 w3 : World) :
  extends P w1 w2 -> extends P w2 w3 -> extends P w1 w3.
Proof.
  intros (n1 & H1 & F1) (n2 & H2 & F2). exists (n2 ++ n1).
  rewrite H2, H1, app_assoc. split; [reflexivity|].
  apply Forall_app; auto.
Qed.

Lemma extends_step (P : event -> Prop) (w : World) (m : gmap string Node) (e : event) :
  P e -> extends P w {| fs := m; trace := e :: trace w |}.
Proof. intros H. exists [e]. split; [reflexivity|]. repeat constructor; exact H. Qed.


Lemma grows_ret {A : Type} (P : event -> Prop) (a : A) : grows P (mret a).
Proof. intros w. apply extends_refl. Qed.

Lemma grows_bind {A B : Type} (P : event -> Prop) (m : M A) (k : A -> M B) :
  grows P m -> (forall a, grows P (k a)) -> grows P (m ≫= k).
Proof.
  intros Hm Hk w. unfold mbind, M_bind.
  specialize (Hm w). destruct (m w) as [a w1]. cbn [snd] in Hm.
  eapply extends_trans; [exact Hm|apply Hk].
Qed.

Lemma grows_emit (P : event -> Prop) (e : event) : P e -> grows P (emit e).
Proof. intros H w. apply extends_step, H. Qed.

Lemma grows_printAll (P : event -> Prop) (os : list output) :
  (forall o, P (EvPrint o)) -> grows P (printAll os).
Proof.
  intros H. induction os as [|o os IH]; cbn [printAll].
  - apply grows_ret.
  - apply grows_bind; [apply grows_emit, H|intros _; exact IH].
Qed.

Lemma grows_sys (P : event -> Prop) (env : Env) (c : syscall)
    (eff : gmap string Node -> result (gmap string Node)) :
  (forall r, P (EvCall c r)) -> grows P (sys env c eff).
Proof.
  intros H w. unfold sys.
  destruct (fault env (trace w) c); [apply extends_step, H|].
  destruct (eff (fs w)); apply extends_step, H.
Qed.

Lemma grows_os_Stat (P : event -> Prop) (env : Env) (name : string) :
  (forall r, P (EvCall (Stat name) r)) -> grows P (os_Stat env name).
Proof.
  intros H w. unfold os_Stat.
  destruct (fault env (trace w) (Stat name)); [apply extends_step, H|].
  destruct (fs w !! name); apply extends_step, H.
Qed.

Lemma grows_cmd_Run (P : event -> Prop) (env : Env) (c : command) :
  (forall r, P (EvExec c r)) -> grows P (cmd_Run env c).
Proof. intros H w. apply extends_step, H. Qed.

Lemma grows_time_Now (P : event -> Prop) (env : Env) : grows P (time_Now env).
Proof. intros w. apply extends_refl. Qed.

Lemma grows_os_MkdirTemp (P : event -> Prop) (env : Env) (dir pattern : string) :
  (forall r, P (EvMkdirTemp pattern r)) -> grows P (os_MkdirTemp env dir pattern).
Proof.
  intros H w. unfold os_MkdirTemp.
  destruct (fault env (trace w) (MkdirTemp dir pattern)); apply extends_step, H.
Qed.

(** The steps of a run, taken apart by [grows_bind] down to the system
    calls. *)
Ltac grows_step :=
  lazymatch goal with
  | |- grows _ (mret _) => apply grows_ret
  | |- grows _ (_ ≫= _) => apply grows_bind; [|intros ?]
  | |- grows _ (orReturn _ _) => unfold orReturn
  | |- grows _ (deferring _ _) => unfold deferring
  | |- grows _ (print _) => apply grows_emit; exact I
  | |- grows _ (emit _) => apply grows_emit; exact I
  | |- grows _ (printAll _) => apply grows_printAll; intros ?; exact I
  | |- grows _ (sys _ _ _) => apply grows_sys; intros ?; exact I
  | |- grows _ (os_Stat _ _) => apply grows_os_Stat; intros ?; exact I
  | |- grows _ (os_MkdirAll _ _ _) =>
      intros ?; unfold os_MkdirAll; apply grows_sys; intros ?; exact I
  | |- grows _ (os_WriteFile _ _ _ _) =>
      intros ?; unfold os_WriteFile; apply grows_sys; intros ?; exact I
  | |- grows _ (os_Chmod _ _ _) => unfold os_Chmod
  | |- grows _ (os_RemoveAll _ _) => unfold os_RemoveAll
  | |- grows _ (os_MkdirTemp _ _ _) => apply grows_os_MkdirTemp; intros ?; exact I
  | |- grows _ (cmd_Run _ _) => apply grows_cmd_Run; intros ?; exact I
  | |- grows _ (time_Now _) => apply grows_time_Now
  | |- grows _ (time_Since _ _) => unfold time_Since
  | |- grows _ (runBinary _ _) => unfold runBinary
  | |- grows _ (createModule _ _ _) => unfold createModule
  | |- grows _ (buildWith _ _ _ _) => unfold buildWith
  | |- grows _ (match ?x with _ => _ end) => destruct x
  | |- grows _ (if ?x then _ else _) => destruct x
  end.

Lemma grows_runCached_build (env : Env) (code : list byte)
    (cacheDir binaryPath tmpDir : string) :
  grows notTemp (runCached_build env code cacheDir binaryPath tmpDir).
Proof. unfold runCached_build. repeat grows_step. Qed.

Lemma grows_runOnce_go (env : Env) (code : list byte) (tmpDir : string) :
  grows notTemp (runOnce_go env code tmpDir).
Proof. unfold runOnce_go. repeat grows_step. Qed.

Lemma grows_runCached_lookup (env : Env) (binaryPath : string) :
  grows notTemp (runCached_lookup env binaryPath).
Proof. unfold runCached_lookup. repeat grows_step. Qed.

(** ** The build workspace *)

Lemma append_nonempty (x : string) (c : ascii) (y : string) :
  x +:+ String c y <> "".
Proof. destruct x; discriminate. Qed.

Lemma tempPath_nonempty (env : Env) (dir pattern random : string) :
  tempPath env dir pattern random <> "".
Proof.
  unfold tempPath, Separator.
  destruct (String.eqb (GOOS env) "windows");
    rewrite append_cons; apply append_nonempty.
Qed.

Lemma os_RemoveAll_spec (env : Env) (path : string) (w : World) :
  path <> "" ->
  exists r,
    trace (snd (os_RemoveAll env path w)) = EvCall (RemoveAll path) r :: trace w
    /\ (r = None -> nothingUnder env path (snd (os_RemoveAll env path w))).
Proof.
  intros Hne. unfold os_RemoveAll, sys.
  destruct (fault env (trace w) (RemoveAll path)) as [e|].
  { exists (Some e). split; [reflexivity|discriminate]. }
  apply String.eqb_neq in Hne. rewrite Hne.
  exists None. split; [reflexivity|]. intros _ p Hp. cbn [snd fs].
  apply map_lookup_filter_None. right. intros x _. cbn [fst]. congruence.
Qed.

Lemma not_In_notTemp (new : list event) (pattern : string) (r : result string) :
  Forall notTemp new -> ~ In (EvMkdirTemp pattern r) new.
Proof.
  intros F Hin. rewrite Forall_forall in F.
  apply list_elem_of_In in Hin. exact (F _ Hin).
Qed.

Lemma cleansUp_grows {A : Type} (env : Env) (m : M A) :
  grows notTemp m -> cleansUp env m.
Proof.
  intros H w. destruct (H w) as (new & E & F). exists new.
  split; [exact E|]. intros pattern tmpDir Hin.
  exfalso. exact (not_In_notTemp _ _ _ F Hin).
Qed.

Lemma cleansUp_bind {A B : Type} (env : Env) (m : M A) (k : A -> M B) :
  grows notTemp m -> (forall a, cleansUp env (k a)) -> cleansUp env (m ≫= k).
Proof.
  intros Hm Hk w. unfold mbind, M_bind.
  destruct (Hm w) as (nm & Em & Fm). destruct (m w) as [a w1]. cbn [snd] in Em.
  destruct (Hk a w1) as (nk & Ek & Hclean).
  exists (nk ++ nm). rewrite Ek, Em, app_assoc. split; [reflexivity|].
  intros pattern tmpDir Hin. apply in_app_or in Hin as [Hin|Hin].
  - destruct (Hclean _ _ Hin) as (r & rest & -> & Hgone).
    exists r, (rest ++ nm). split; [reflexivity|exact Hgone].
  - exfalso. exact (not_In_notTemp _ _ _ Fm Hin).
Qed.

(** A temporary directory with its deferred removal. *)
Lemma cleansUp_workspace {A : Type} (env : Env) (pattern : string)
    (onError : error -> A) (body : string -> M A) :
  (forall tmpDir, grows notTemp (body tmpDir)) ->
  cleansUp env
    (tmp ← os_MkdirTemp env "" pattern;
     match tmp with
     | Fail err => mret (onError err)
     | Ok tmpDir => deferring (os_RemoveAll env tmpDir) (body tmpDir)
     end).
Proof.
  intros Hbody w.
  match goal with |- context [snd ?x] => remember x as res eqn:Eres end.
  unfold mbind, M_bind, os_MkdirTemp in Eres.
  destruct (fault env (trace w) (MkdirTemp "" pattern)) as [e|].
  { subst res. exists [EvMkdirTemp pattern (Fail e)]. split; [reflexivity|].
    intros p t [H|[]]. discriminate H. }
  set (tmpDir := tempPath env "" pattern (randomName env (trace w))) in Eres.
  set (w1 := {| fs := _; trace := _ |}) in Eres.
  unfold deferring, mbind, M_bind in Eres.
  destruct (Hbody tmpDir w1) as (nb & Eb & Fb).
  destruct (body tmpDir w1) as [a w2]. cbn [snd] in Eb.
  destruct (os_RemoveAll_spec env tmpDir w2 (tempPath_nonempty _ _ _ _))
    as (r & Er & Hgone).
  destruct (os_RemoveAll env tmpDir w2) as [r' w3]. cbn [snd] in Er, Hgone.
  subst res. cbn [snd mret M_ret].
  exists (EvCall (RemoveAll tmpDir) r :: nb ++ [EvMkdirTemp pattern (Ok tmpDir)]).
  split.
  { rewrite Er, Eb. cbn [trace w1 app]. rewrite <- app_assoc. reflexivity. }
  intros p t [H|Hin]; [discriminate H|].
  apply in_app_or in Hin as [Hin|[H|[]]].
  { exfalso. exact (not_In_notTemp _ _ _ Fb Hin). }
  injection H as _ <-. eauto.
Qed.

Lemma cleansUp_runOnce (env : Env) (code : list byte) :
  cleansUp env (runOnce env code).
Proof.
  unfold runOnce.
  apply (cleansUp_workspace env "gogo-once-*" Some (runOnce_go env code)).
  intros tmpDir. apply grows_runOnce_go.
Qed.

Lemma cleansUp_runCached (env : Env) (code : list byte) :
  cleansUp env (runCached env code).
Proof.
  unfold runCached. destruct (getCachePaths env code) as [cacheDir binaryPath].
  apply cleansUp_bind; [apply grows_runCached_lookup|].
  intros [|].
  { apply cleansUp_grows. repeat grows_step. }
  unfold runCached_miss, orReturn.
  apply cleansUp_bind; [repeat grows_step|].
  intros [e|]; [apply cleansUp_grows, grows_ret|].
  apply cleansUp_bind; [repeat grows_step|].
  intros [e|]; [apply cleansUp_grows, grows_ret|].
  apply (cleansUp_workspace env "gogo-build-*" Some
           (runCached_build env code cacheDir binaryPath)).
  intros tmpDir. apply grows_runCached_build.
Qed.

(** C9: in either mode, every build workspace the run created is
    removed by the last call the run makes, on every path out of it,
    and unless that removal itself fails nothing at or below the
    workspace is left in the file system. *)
Theorem workspace_never_outlives_run (env : Env) (flags : Flags)
    (code : list byte) (w : World) (new : list event)
    (pattern tmpDir : string) :
  trace (snd (runEither env flags code w)) = new ++ trace w ->
  In (EvMkdirTemp pattern (Ok tmpDir)) new ->
  exists r rest,
    new = EvCall (RemoveAll tmpDir) r :: rest
    /\ (r = None -> nothingUnder env tmpDir (snd (runEither env flags code w))).
Proof.
  intros Htrace Hin.
  assert (cleansUp env (runEither env flags code)) as H.
  { unfold runEither. destruct (noCache flags);
      [apply cleansUp_runOnce|apply cleansUp_runCached]. }
  destruct (H w) as (new' & E & Hclean).
  rewrite E in Htrace. apply app_inv_tail in Htrace. subst new'.
  exact (Hclean _ _ Hin).
Qed.

Lemma workspace_never_outlives_run_witness :
  exists r rest,
    trace (snd (runEither (host 1000 homeCache noFault true None "package main")
                  noFlags (list_byte_of_string "package main") emptyWorld))
    = EvCall (RemoveAll "/tmp/gogo-build-42") r :: rest
    /\ (r = None ->
        nothingUnder (host 1000 homeCache noFault true None "package main")
          "/tmp/gogo-build-42"
          (snd (runEither (host 1000 homeCache noFault true None "package main")
                  noFlags (list_byte_of_string "package main") emptyWorld))).
Proof.
  apply (workspace_never_outlives_run
           (host 1000 homeCache noFault true None "package main") noFlags
           (list_byte_of_string "package main") emptyWorld _ "gogo-build-*").
  - symmetry. apply app_nil_r.
  - vm_compute. tauto.
Defined.

(** ** The cache lookup *)

Lemma time_Sub_lt (t u d : Z) :
  minInt64 < d <= maxInt64 -> (time_Sub t u <? d) = (t - u <? d).
Proof.
  unfold time_Sub, minInt64, maxInt64. intros H.
  destruct (Z.ltb_spec (2 ^ 63 - 1) (t - u)).
  { destruct (Z.ltb_spec (2 ^ 63 - 1) d), (Z.ltb_spec (t - u) d); lia. }
  destruct (Z.ltb_spec (t - u) (- 2 ^ 63)); [|reflexivity].
  destruct (Z.ltb_spec (- 2 ^ 63) d), (Z.ltb_spec (t - u) d); lia.
Qed.

Lemma runCached_lookup_run (env : Env) (binaryPath : string) (w : World) :
  runCached_lookup env binaryPath w
  = (match fst (os_Stat env binaryPath w) with
     | Ok info =>
         clock env (trace (snd (os_Stat env binaryPath w))) - ModTime info
         <? 72 * Hour
     | Fail _ => false
     end,
     snd (os_Stat env binaryPath w)).
Proof.
  unfold runCached_lookup, mbind, M_bind.
  destruct (os_Stat env binaryPath w) as [[info|e] w1]; [|reflexivity].
  unfold time_Since, time_Now, mbind, M_bind, mret, M_ret. cbn [fst snd].
  f_equal. apply time_Sub_lt. vm_compute. split; [reflexivity|discriminate].
Qed.





(** ** The cache paths *)







(** ** Where the code departs from its specification *)

Lemma grows_runEither (env : Env) (flags : Flags) (code : list byte) :
  grows (fun _ => True) (runEither env flags code).
Proof.
  unfold runEither, runOnce, runCached, runCached_miss, runCached_lookup,
    runOnce_go, runCached_build.
  repeat grows_step.
Qed.

(** Whatever the input is, once it has been read [main] first runs it as
    it stands: the world [main] ends in comes after the world that this
    first run leaves, and the checks only follow it. *)
Lemma main_runs_raw_input_first (env : Env) (flags : Flags)
    (code : list byte) (w w1 : World) :
  showVersion flags = false -> clearCache flags = false ->
  readInput env (arg0 flags) w = (Ok code, w1) ->
  extends (fun _ => True)
    (snd (runEither env flags code w1)) (snd (main env flags w)).
Proof.
  intros Hv Hc Hread. unfold main. rewrite Hv, Hc.
  unfold mbind at 1, M_bind at 1. rewrite Hread.
  unfold mbind at 1, M_bind at 1.
  destruct (runEither env flags code w1) as [[e|] w2]; cbn [snd].
  { apply (grows_bind _ (print _) (fun _ => mret 1));
      [repeat grows_step|intros; apply grows_ret]. }
  destruct (length code =? 0)%nat.
  { apply (grows_bind _ (printAll usage) (fun _ => mret 1));
      [repeat grows_step|intros; apply grows_ret]. }
  destruct (validateCode code).
  { apply (grows_bind _ (print _) (fun _ => mret 1));
      [repeat grows_step|intros; apply grows_ret]. }
  destruct (stripShebang code) as [code' [e|]].
  { apply (grows_bind _ (print _) (fun _ => mret 1));
      [repeat grows_step|intros; apply grows_ret]. }
  apply (grows_bind _ (runEither env flags code')
           (fun err => match err with
                       | Some e => print (Printf Plain Stderr ("Error: %v" +:+ nl) [AErr e]) ;; mret 1
                       | None => mret 0
                       end)).
  - apply grows_runEither.
  - intros [e|]; repeat grows_step.
Qed.

(** C1, on the code: [main] runs the build on the raw input before it
    validates it.  A source that [validateCode] rejects and the
    compiler accepts gets its cache entry, its workspace, both
    toolchain steps and a run of its binary; only then does [main]
    exit with the validation error. *)
Theorem main_builds_before_validating :
  let env := host 1000 homeCache noFault false None blockCommentProgram in
  let code := list_byte_of_string blockCommentProgram in
  let r := main env noFlags emptyWorld in
  validateCode code = Some errNoPackage
  /\ fst r = 1
  /\ workspacesMade (trace (snd r)) = ["/tmp/gogo-build-42"]
  /\ commandsRun (trace (snd r))
     = [ Command "go" ["mod"; "tidy"] "/tmp/gogo-build-42";
         Command "go" ["build"; "-o"; entryBinary; "."] "/tmp/gogo-build-42";
         Command entryBinary [] "" ]
  /\ fs (snd r) !! entrySource = Some (File code perm_0644 1000)
  /\ fs (snd r) !! entryBinary = Some (File [] perm_0755 1000)
  /\ printedTo Stderr (trace (snd r))
     = [ Printf Plain Stderr ("Error validation: %v" +:+ nl) [AErr errNoPackage] ].
Proof. vm_compute. repeat split. Qed.

(** C2, on the code: the entry directory is removed only when the
    build step fails.  When go mod tidy fails, the directory and the
    copy of the source stay; when the write of meta.txt fails, the run
    succeeds, the entry has no metadata, and the next lookup of the
    same source is a hit. *)
Theorem failed_population_leaves_entry :
  let code := list_byte_of_string "package main" in
  let tidyFails := host 1000 homeCache noFault true None "package main" in
  let metaFails := host 1000 homeCache metaFault false None "package main" in
  let buildFails :=
    host 1000 homeCache noFault false (Some "main.go:1:13: syntax error: x")
      "package main" in
  let r1 := runCached tidyFails code emptyWorld in
  let r2 := runCached metaFails code emptyWorld in
  let r3 := runCached buildFails code emptyWorld in
  getCachePaths tidyFails code = (entryDir, entryBinary)
  /\ fst r1 = Some (Errorf "go mod tidy failed: %w" [AErr (ExitError "exit status 1")])
  /\ fs (snd r1) !! entryDir = Some (Dir perm_0755 1000)
  /\ fs (snd r1) !! entrySource = Some (File code perm_0644 1000)
  /\ fst r2 = None
  /\ fs (snd r2) !! entryBinary = Some (File [] perm_0755 1000)
  /\ fs (snd r2) !! entryMeta = None
  /\ fst (runCached_lookup metaFails entryBinary (snd r2)) = true
  /\ fst r3 = Some (Errorf "compilation failed" [])
  /\ fs (snd r3) !! entryDir = None
  /\ fs (snd r3) !! entrySource = None.
Proof. vm_compute. repeat split. Qed.

(** C3, on the code: a failure of go mod tidy ends the run with its own
    error before the compiler is called, but the cache entry has been
    started by then: its directory and the copy of the source exist
    afterwards where there was nothing before. *)
Theorem tidy_failure_leaves_entry :
  let code := list_byte_of_string "package main" in
  let env := host 1000 homeCache noFault true None "package main" in
  let r := runCached env code emptyWorld in
  fst r = Some (Errorf "go mod tidy failed: %w" [AErr (ExitError "exit status 1")])
  /\ commandsRun (trace (snd r))
     = [ Command "go" ["mod"; "tidy"] "/tmp/gogo-build-42" ]
  /\ fs emptyWorld !! entryDir = None
  /\ fs emptyWorld !! entrySource = None
  /\ fs (snd r) !! entryDir = Some (Dir perm_0755 1000)
  /\ fs (snd r) !! entrySource = Some (File code perm_0644 1000)
  /\ fs (snd r) !! entryBinary = None.
Proof. vm_compute. repeat split. Qed.

(** C5, on the code: on empty input [main] runs the build before it
    looks at the length of the input; when the toolchain fails on the
    empty source the run ends with the error of the build and no usage
    text.  The runner under cmd/ checks first, but prints its usage to
    standard output and ends with status 0. *)
Theorem empty_input_reaches_build :
  let env := host 1000 homeCache noFault true None "" in
  let r := main env noFlags emptyWorld in
  let g := Gorun.main env [] emptyWorld in
  stdin env = Ok []
  /\ fst r = 1
  /\ workspacesMade (trace (snd r)) = ["/tmp/gogo-build-42"]
  /\ commandsRun (trace (snd r))
     = [ Command "go" ["mod"; "tidy"] "/tmp/gogo-build-42" ]
  /\ printedTo Stderr (trace (snd r))
     = [ Printf Plain Stderr ("Error: %v" +:+ nl)
           [AErr (Errorf "go mod tidy failed: %w"
                    [AErr (ExitError "exit status 1")])] ]
  /\ fst g = 0
  /\ commandsRun (trace (snd g)) = []
  /\ printedTo Stderr (trace (snd g)) = []
  /\ printedTo Stdout (trace (snd g)) = Gorun.usage.
Proof. vm_compute. repeat split. Qed.

(** * Further properties of the code *)

(** ** [stripShebang] and [validateCode] *)

Lemma afterNewline_found (line rest : list byte) :
  ~ In byte_nl line -> afterNewline (line ++ byte_nl :: rest) = Some rest.
Proof.
  induction line as [|b line IH]; intros H; cbn [app afterNewline].
  - reflexivity.
  - destruct (Byte.eqb b byte_nl) eqn:E.
    + apply Byte.byte_dec_bl in E. subst b. exfalso. apply H. left. reflexivity.
    + apply IH. intros Hin. apply H. right. exact Hin.
Qed.

Lemma afterNewline_none (line : list byte) :
  ~ In byte_nl line -> afterNewline line = None.
Proof.
  induction line as [|b line IH]; intros H; cbn [afterNewline]; [reflexivity|].
  destruct (Byte.eqb b byte_nl) eqn:E.
  - apply Byte.byte_dec_bl in E. subst b. exfalso. apply H. left. reflexivity.
  - apply IH. intros Hin. apply H. right. exact Hin.
Qed.

Lemma afterNewline_suffix (l r : list byte) :
  afterNewline l = Some r -> exists k, r = drop k l.
Proof.
  revert r; induction l as [|b l IH]; intros r H; cbn in H; [discriminate|].
  destruct (Byte.eqb b byte_nl).
  - injection H as <-. exists 1%nat. reflexivity.
  - destruct (IH _ H) as [k ->]. exists (S k). reflexivity.
Qed.

(** What [stripShebang] does with a directive.  A directive line closed
    by a line feed is cut off together with the line feed, whatever
    follows; a directive that is never closed is an error and the input
    comes back whole; the bare marker, two bytes long, is neither cut nor
    an error.  Whatever the input, the result is the input from some
    position on. *)
Theorem stripShebang_directive (line rest : list byte) :
  (~ In byte_nl line ->
   stripShebang (x23 :: x21 :: line ++ byte_nl :: rest) = (rest, None))
  /\ (~ In byte_nl line -> line <> [] ->
      stripShebang (x23 :: x21 :: line) = (x23 :: x21 :: line, Some errShebang))
  /\ stripShebang [x23; x21] = ([x23; x21], None)
  /\ forall code, exists k, fst (stripShebang code) = drop k code.
Proof.
  split; [|split; [|split]].
  - intros H. unfold stripShebang.
    assert (hasShebang (x23 :: x21 :: line ++ byte_nl :: rest) = true) as ->.
    { destruct line; reflexivity. }
    change (drop 2 (x23 :: x21 :: line ++ byte_nl :: rest)) with (line ++ byte_nl :: rest).
    rewrite (afterNewline_found line rest H). reflexivity.
  - intros H Hne. unfold stripShebang.
    assert (hasShebang (x23 :: x21 :: line) = true) as ->.
    { destruct line; [congruence|reflexivity]. }
    change (drop 2 (x23 :: x21 :: line)) with line.
    rewrite (afterNewline_none line H). reflexivity.
  - reflexivity.
  - intros code. unfold stripShebang.
    destruct (hasShebang code); [|exists O; reflexivity].
    destruct (afterNewline (drop 2 code)) as [r|] eqn:E; [|exists O; reflexivity].
    apply afterNewline_suffix in E as [k ->]. exists (k + 2)%nat.
    cbn [fst]. rewrite drop_drop. f_equal. lia.
Qed.

Lemma stripShebang_directive_witness :
  stripShebang (x23 :: x21 :: list_byte_of_string "/usr/bin/env gogo"
                ++ byte_nl :: list_byte_of_string "package main")
  = (list_byte_of_string "package main", None)
  /\ stripShebang (x23 :: x21 :: list_byte_of_string "/usr/bin/env gogo")
     = (x23 :: x21 :: list_byte_of_string "/usr/bin/env gogo", Some errShebang).
Proof.
  split.
  - apply (proj1 (stripShebang_directive
                    (list_byte_of_string "/usr/bin/env gogo")
                    (list_byte_of_string "package main"))).
    vm_compute. intuition discriminate.
  - apply (proj1 (proj2 (stripShebang_directive
                    (list_byte_of_string "/usr/bin/env gogo") []))).
    + vm_compute. intuition discriminate.
    + discriminate.
Defined.

Lemma validateCode_scan_accepts (texts : list string) :
  validateCode_scan texts = None
  <-> exists pre text post,
        texts = pre ++ text :: post
        /\ forallb skippable pre = true
        /\ skippable text = false
        /\ HasPrefix (TrimSpace text) "package " = true.
Proof.
  induction texts as [|t texts IH]; cbn [validateCode_scan].
  - split; [discriminate|]. intros (pre & text & post & H & _).
    destruct pre; discriminate.
  - fold (skippable t). destruct (skippable t) eqn:Es.
    + rewrite IH. split.
      * intros (pre & text & post & -> & Hp & Ht & Hk).
        exists (t :: pre), text, post. cbn [forallb]. rewrite Es, Hp. auto.
      * intros (pre & text & post & H & Hp & Ht & Hk).
        destruct pre as [|t' pre]; cbn in H; injection H as <- ->.
        { congruence. }
        cbn [forallb] in Hp. apply andb_prop in Hp as [_ Hp].
        exists pre, text, post. auto.
    + destruct (HasPrefix (TrimSpace t) "package ") eqn:Ek.
      * split; [|reflexivity]. intros _. exists [], t, texts. auto.
      * split; [discriminate|].
        intros (pre & text & post & H & Hp & Ht & Hk).
        destruct pre as [|t' pre]; cbn in H; injection H as <- ->.
        { congruence. }
        cbn [forallb] in Hp. apply andb_prop in Hp as [Hp _]. congruence.
Qed.

Lemma validateCode_scan_error (texts : list string) :
  validateCode_scan texts = None \/ validateCode_scan texts = Some errNoPackage.
Proof.
  induction texts as [|t texts IH]; cbn [validateCode_scan]; [auto|].
  destruct (_ || _); [exact IH|]. destruct (HasPrefix _ _); auto.
Qed.

(** [validateCode] accepts a source exactly when, reading its lines from
    the top and passing over the blank ones and the line comments, the
    first line left begins, after trimming, with the word package and a
    space; it has one error for everything else, an empty source and a
    source of blank lines and comments included. *)
Theorem validateCode_accepts_iff (code : list byte) :
  (validateCode code = None
   <-> exists pre text post,
         scanTexts code = pre ++ text :: post
         /\ forallb skippable pre = true
         /\ skippable text = false
         /\ HasPrefix (TrimSpace text) "package " = true)
  /\ (validateCode code = None \/ validateCode code = Some errNoPackage)
  /\ (forallb skippable (scanTexts code) = true ->
      validateCode code = Some errNoPackage)
  /\ validateCode [] = Some errNoPackage.
Proof.
  split; [apply validateCode_scan_accepts|].
  split; [apply validateCode_scan_error|].
  split; [|reflexivity].
  intros H. destruct (validateCode_scan_error (scanTexts code)) as [E|E]; [|exact E].
  apply validateCode_scan_accepts in E as (pre & text & post & Eq & _ & Ht & _).
  rewrite Eq, forallb_app in H. cbn [forallb] in H.
  rewrite Ht, andb_false_r in H. discriminate.
Qed.

Lemma validateCode_accepts_iff_witness :
  validateCode (list_byte_of_string
                  ("// a script" +:+ nl +:+ nl +:+ "  package main" +:+ nl
                   +:+ "func main() {}")) = None
  /\ validateCode (list_byte_of_string ("// only a comment" +:+ nl +:+ "   "))
     = Some errNoPackage.
Proof.
  split.
  - apply (proj2 (proj1 (validateCode_accepts_iff _))).
    exists ["// a script"; ""], "  package main", ["func main() {}"].
    vm_compute. repeat split.
  - apply (proj1 (proj2 (proj2 (validateCode_accepts_iff _)))).
    vm_compute. reflexivity.
Defined.

(** *** A directive never passes validation *)

Lemma rev_app_acc (s acc : string) :
  String.rev_app s acc = String.rev_app s "" +:+ acc.
Proof.
  revert acc; induction s as [|c s IH]; intros acc; cbn [String.rev_app].
  - reflexivity.
  - rewrite (IH (String c acc)), (IH (String c "")).
    clear. induction (String.rev_app s "") as [|a r IHr]; [reflexivity|].
    rewrite !append_cons, IHr. reflexivity.
Qed.

Lemma rev_cons (c : ascii) (s : string) :
  String.rev (String c s) = String.rev s +:+ String c "".
Proof. unfold String.rev. cbn [String.rev_app]. apply rev_app_acc. Qed.

Lemma rev_snoc (s : string) (c : ascii) :
  String.rev (s +:+ String c "") = String c (String.rev s).
Proof.
  unfold String.rev. generalize "" at 2 3.
  induction s as [|a s IH]; intros acc.
  - reflexivity.
  - rewrite append_cons. cbn [String.rev_app]. apply IH.
Qed.

Lemma prefix_keeps_last (p y : string) (c : ascii) :
  allIn (fun a => negb (Ascii.eqb a c)) p = true ->
  String.prefix p (y +:+ String c "") = true ->
  exists y', slice_from (y +:+ String c "") (String.length p) = y' +:+ String c "".
Proof.
  revert y; induction p as [|a p IH]; intros y Hp Hpre.
  - exists y. destruct (y +:+ String c ""); reflexivity.
  - cbn [allIn] in Hp. apply andb_prop in Hp as [Ha Hp].
    destruct y as [|b y].
    + rewrite append_empty_l in Hpre. cbn [String.prefix] in Hpre.
      destruct (ascii_dec a c) as [->|]; [|discriminate].
      rewrite Ascii.eqb_refl in Ha. discriminate.
    + rewrite append_cons in *. cbn [String.prefix] in Hpre.
      destruct (ascii_dec a b); [|discriminate].
      cbn [String.length slice_from]. apply IH; assumption.
Qed.

Lemma stripOneOf_keeps_last (pres : list string) (y s' : string) (c : ascii) :
  forallb (allIn (fun a => negb (Ascii.eqb a c))) pres = true ->
  stripOneOf pres (y +:+ String c "") = Some s' ->
  exists y', s' = y' +:+ String c "".
Proof.
  induction pres as [|p pres IH]; intros Hall H; cbn [stripOneOf] in H.
  - discriminate.
  - cbn [forallb] in Hall. apply andb_prop in Hall as [Hp Hall].
    destruct (String.prefix p (y +:+ String c "")) eqn:E.
    + injection H as <-. apply prefix_keeps_last; assumption.
    + apply IH; assumption.
Qed.

Lemma trimLeft_keeps_last (pres : list string) (c : ascii) (fuel : nat) :
  forallb (allIn (fun a => negb (Ascii.eqb a c))) pres = true ->
  forall y, exists y',
    trimLeft_fuel fuel pres (y +:+ String c "") = y' +:+ String c "".
Proof.
  intros Hall. induction fuel as [|fuel IH]; intros y; cbn [trimLeft_fuel].
  - eauto.
  - destruct (stripOneOf pres (y +:+ String c "")) as [s'|] eqn:E; [|eauto].
    destruct (stripOneOf_keeps_last _ _ _ _ Hall E) as [y' ->]. apply IH.
Qed.

(** Trimming leaves a line that starts with the number sign starting
    with it. *)
Lemma TrimSpace_hash (s : string) :
  exists s', TrimSpace (String "#" s) = String "#" s'.
Proof.
  unfold TrimSpace.
  assert (TrimLeftSpace (String "#" s) = String "#" s) as ->.
  { unfold TrimLeftSpace. cbn [String.length trimLeft_fuel].
    assert (stripOneOf spaceEncodings (String "#" s) = None) as ->
      by (vm_compute; reflexivity).
    reflexivity. }
  unfold TrimRightSpace. rewrite rev_cons.
  destruct (trimLeft_keeps_last (map String.rev spaceEncodings) "#"
              (String.length (String "#" s))
              ltac:(vm_compute; reflexivity) (String.rev s)) as [y' ->].
  rewrite rev_snoc. eauto.
Qed.

Lemma rawLines_head (b : byte) (l : list byte) :
  Byte.eqb b byte_nl = false ->
  rawLines (b :: l) = (b :: hd [] (rawLines l)) :: tail (rawLines l).
Proof.
  intros H. cbn [rawLines]. rewrite H.
  destruct (rawLines l) as [|x xs]; reflexivity.
Qed.

Lemma dropCR_head (b : byte) (l : list byte) :
  l <> [] -> exists l', dropCR (b :: l) = b :: l'.
Proof.
  intros Hne. unfold dropCR.
  destruct (rev (b :: l)) as [|c r] eqn:E; [eauto|].
  destruct (Byte.eqb c byte_cr); [|eauto].
  assert (b :: l = rev r ++ [c]) as E'.
  { rewrite <- (rev_involutive (b :: l)), E. reflexivity. }
  destruct (rev r) as [|d r']; cbn in E'.
  - injection E' as _ ->. congruence.
  - injection E' as -> _. eauto.
Qed.

Lemma scanTexts_directive (code : list byte) :
  startsWithMarker code = true ->
  scanTexts code = []
  \/ exists t rest, scanTexts code = String "#" t :: rest.
Proof.
  destruct code as [|b0 [|b1 l]]; cbn [startsWithMarker]; try discriminate.
  intros H. apply andb_prop in H as [H0 H1].
  apply Byte.byte_dec_bl in H0, H1. subst b0 b1.
  unfold scanTexts.
  rewrite (rawLines_head x23 (x21 :: l) eq_refl), (rawLines_head x21 l eq_refl).
  cbn [hd tail scannable].
  destruct (_ <? _); [|left; reflexivity].
  right. cbn [map].
  destruct (dropCR_head x23 (x21 :: hd [] (rawLines l)) ltac:(discriminate))
    as [l' ->].
  eexists _, _. reflexivity.
Qed.

(** A source that starts with the directive marker never passes
    [validateCode]: its first line is neither blank, nor a comment, nor a
    package clause.  As both [main] functions validate before they
    strip, a source they accept is never cut by [stripShebang]. *)
Theorem directive_fails_validation (code : list byte) :
  (startsWithMarker code = true -> validateCode code = Some errNoPackage)
  /\ (validateCode code = None -> stripShebang code = (code, None)).
Proof.
  assert (startsWithMarker code = true -> validateCode code = Some errNoPackage)
    as Hrej.
  { intros H. unfold validateCode.
    destruct (scanTexts_directive code H) as [->|(t & rest & ->)]; [reflexivity|].
    cbn [validateCode_scan].
    destruct (TrimSpace_hash t) as [s' ->]. reflexivity. }
  split; [exact Hrej|].
  intros Hv. apply stripShebang_unmarked.
  destruct (startsWithMarker code) eqn:E; [|reflexivity].
  rewrite (Hrej eq_refl) in Hv. discriminate.
Qed.

Lemma directive_fails_validation_witness :
  validateCode (list_byte_of_string
                  ("#!/usr/bin/env gogo" +:+ nl +:+ "package main" +:+ nl
                   +:+ "func main() {}")) = Some errNoPackage
  /\ stripShebang (list_byte_of_string "package main")
     = (list_byte_of_string "package main", None).
Proof.
  split.
  - apply (proj1 (directive_fails_validation _)). reflexivity.
  - apply (proj2 (directive_fails_validation _)). vm_compute. reflexivity.
Defined.

(** ** The diagnostic formatter, further *)

Lemma tryLens_greatest {A : Type} (k : nat -> option A) (n : nat) (r : A) :
  tryLens k n = Some r ->
  exists m, (m <= n)%nat /\ k m = Some r
            /\ forall j, (m < j <= n)%nat -> k j = None.
Proof.
  induction n as [|n IH]; cbn; destruct (k _) eqn:E; intros H.
  - injection H as <-. exists O. repeat split; [lia|exact E|intros; lia].
  - discriminate.
  - injection H as <-. exists (S n). repeat split; [lia|exact E|intros; lia].
  - destruct (IH H) as (m & Hm & Hk & Hmax).
    exists m. repeat split; [lia|exact Hk|].
    intros j Hj. destruct (decide (j = S n)) as [->|]; [exact E|].
    apply Hmax. lia.
Qed.

Lemma matchAtoms_rep (cls : ascii -> bool) (mn : nat) (cap : bool)
    (pat : list atom) (s : string) :
  matchAtoms (Rep cls mn cap :: pat) s
  = tryLens
      (fun n =>
         if (mn <=? n)%nat then
           match matchAtoms pat (slice_from s n) with
           | Some caps => Some (if cap then slice_to s n :: caps else caps)
           | None => None
           end
         else None)
      (spanLen cls s).
Proof. reflexivity. Qed.

(** The file of a diagnostic is the longest the line allows: of all the
    ways to read a line as file:line:column: message, the pattern takes
    the one with the longest file, so that a file name may itself hold
    colons and digits. *)
Theorem errorPattern_longest_file (t file line col msg file' line' col' msg' : string) :
  FindStringSubmatch errorPattern t = [t; file; line; col; msg] ->
  errorShape t file' line' col' msg' ->
  (String.length file' <= String.length file)%nat
  /\ String.prefix file t = true.
Proof.
  intros Hfind Hshape. unfold FindStringSubmatch in Hfind.
  destruct (matchAtoms errorPattern t) as [caps|] eqn:E; [|discriminate].
  injection Hfind as ->.
  unfold errorPattern in E.
  match type of E with matchAtoms (_ :: ?rest) _ = _ => set (pat := rest) in * end.
  rewrite (matchAtoms_rep isDot 1 true pat t) in E.
  apply tryLens_greatest in E as (m & Hm & Hk & Hmax).
  destruct (Nat.leb_spec 1 m) as [H1|]; [|discriminate].
  destruct (matchAtoms pat (slice_from t m)) as [caps'|] eqn:Em; [|discriminate].
  injection Hk as <- _.
  destruct (slice_to_span isDot t m Hm) as [_ Hlen]. rewrite Hlen.
  split.
  2:{ rewrite <- (slice_to_from t m) at 2. clear.
      generalize (slice_from t m). induction (slice_to t m) as [|c s IH]; intros r.
      - destruct r; reflexivity.
      - rewrite append_cons. cbn [String.prefix].
        destruct (ascii_dec c c); [apply IH|congruence]. }
  assert (Matches errorPattern t [file'; line'; col'; msg']) as HM.
  { apply Matches_errorPattern. eauto 10. }
  inversion HM as [| |cls mn cap pat' x s caps0 Hall Hmn Hrest]; subst.
  destruct (Nat.le_gt_cases (String.length file') m) as [|Hgt]; [assumption|].
  exfalso.
  assert ((String.length file' <= spanLen isDot (file' +:+ s))%nat) as Hspan
    by (apply span_of_allIn, Hall).
  specialize (Hmax (String.length file') (conj Hgt Hspan)).
  destruct (Nat.leb_spec 1 (String.length file')); [|lia].
  rewrite slice_from_append in Hmax.
  apply matchAtoms_complete in Hrest as [caps1 Hrest].
  fold pat in Hrest. rewrite Hrest in Hmax. discriminate.
Qed.

Lemma errorPattern_longest_file_witness :
  (String.length "a" <= String.length "a:1:2")%nat
  /\ String.prefix "a:1:2" "a:1:2:3:4: x" = true.
Proof.
  apply (errorPattern_longest_file "a:1:2:3:4: x" "a:1:2" "3" "4" "x"
           "a" "1" "2" "3:4: x").
  - vm_compute. reflexivity.
  - exists "". vm_compute. repeat split; discriminate.
Defined.

(** The category of a diagnostic is always one of seven words: the six
    known tokens or [error]; and under [error] the description is the
    whole message, untouched. *)
Theorem splitErrorType_vocabulary (msg : string) :
  In (fst (splitErrorType msg)) ("error" :: knownTypes)
  /\ (fst (splitErrorType msg) = "error" -> snd (splitErrorType msg) = msg).
Proof.
  destruct (splitErrorType_cases msg) as [->|(tok & rest & Hin & _ & ->)];
    cbn [fst snd].
  - split; [left; reflexivity|reflexivity].
  - split; [right; exact Hin|].
    intros ->. exfalso. cbn in Hin.
    repeat (destruct Hin as [Hin|Hin]; [discriminate Hin|]). exact Hin.
Qed.

Lemma splitErrorType_vocabulary_witness :
  snd (splitErrorType "cannot use x (variable of type int) as string value")
  = "cannot use x (variable of type int) as string value".
Proof.
  apply (proj2 (splitErrorType_vocabulary _)). vm_compute. reflexivity.
Defined.

Lemma showSourceContext_loop_styles (lines : list string) (errorLine : Z) :
  forall (fuel : nat) (i end_ : Z) (out : list output),
    showSourceContext_loop fuel lines errorLine i end_ = Some out ->
    ~ In compilationFailed out.
Proof.
  induction fuel as [|fuel IH]; intros i end_ out H; cbn [showSourceContext_loop] in H.
  - injection H as <-. intros [].
  - destruct (i <? end_); [|injection H as <-; intros []].
    destruct (i <? 0); [discriminate|].
    destruct (lines !! Z.to_nat i); [|discriminate].
    destruct (showSourceContext_loop fuel lines errorLine _ end_) as [rest|] eqn:E;
      [|discriminate].
    injection H as <-. intros Hin. apply in_app_or in Hin as [Hin|Hin].
    + destruct (_ =? errorLine); cbn in Hin;
        repeat (destruct Hin as [Hin|Hin]; [discriminate Hin|]); exact Hin.
    + exact (IH _ _ _ E Hin).
Qed.

Lemma showSourceContext_no_banner (source : list byte) (errorLine : Z) :
  ~ In compilationFailed (showSourceContext source errorLine).
Proof.
  unfold showSourceContext, showSourceContext_run.
  destruct (_ || _); [intros []|].
  match goal with |- context [showSourceContext_loop ?f ?l ?e ?i ?n] =>
    destruct (showSourceContext_loop f l e i n) as [out|] eqn:E end.
  - exact (showSourceContext_loop_styles _ _ _ _ _ _ E).
  - intros [].
Qed.

Lemma parseGoErrors_line_found (sourceCode : list byte) (line : string) :
  fst (parseGoErrors_line sourceCode line) = true <-> isDiagnostic line.
Proof.
  unfold isDiagnostic.
  destruct (String.eqb_spec (TrimSpace line) "") as [E|E].
  { rewrite (parseGoErrors_line_blank _ _ E). split; [discriminate|].
    intros [H _]. contradiction. }
  destruct (FindStringSubmatch_errorPattern (TrimSpace line))
    as [(file & lnum & col & msg & _ & Hs)|[_ Hno]].
  - destruct (parseGoErrors_line_diagnostic sourceCode line E)
      as (f & l & c & m & _ & ->); [eauto 6|].
    split; [intros _; split; eauto 6|reflexivity].
  - rewrite (parseGoErrors_line_passthrough sourceCode line E Hno).
    split; [discriminate|]. intros [_ (f & l & c & m & Hs)].
    exfalso. exact (Hno _ _ _ _ Hs).
Qed.

Lemma parseGoErrors_line_no_banner (sourceCode : list byte) (line : string) :
  ~ In compilationFailed (snd (parseGoErrors_line sourceCode line)).
Proof.
  destruct (String.eqb_spec (TrimSpace line) "") as [E|E].
  { rewrite (parseGoErrors_line_blank _ _ E). intros []. }
  destruct (FindStringSubmatch_errorPattern (TrimSpace line))
    as [(file & lnum & col & msg & _ & Hs)|[_ Hno]].
  - destruct (parseGoErrors_line_diagnostic sourceCode line E)
      as (f & l & c & m & _ & ->); [eauto 6|].
    cbn [snd]. unfold diagnosticReport. intros Hin.
    apply in_app_or in Hin as [Hin|Hin].
    { cbn in Hin. repeat (destruct Hin as [Hin|Hin]; [discriminate Hin|]).
      exact Hin. }
    apply in_app_or in Hin as [Hin|Hin].
    { destruct (0 <? length sourceCode)%nat; [|exact Hin].
      exact (showSourceContext_no_banner _ _ Hin). }
    destruct Hin as [Hin|[]]. discriminate Hin.
  - rewrite (parseGoErrors_line_passthrough sourceCode line E Hno).
    intros [Hin|[]]. discriminate Hin.
Qed.

(** The report ends with the notice of failure exactly when some line
    of the raw output is a diagnostic; when none is, the report is the
    non-blank lines, trimmed, one after the other, and nothing else. *)
Theorem parseGoErrors_notice (rawOutput : string) (sourceCode : list byte) :
  (In compilationFailed (parseGoErrors rawOutput sourceCode)
   <-> exists line, In line (Split rawOutput newline) /\ isDiagnostic line)
  /\ ((exists line, In line (Split rawOutput newline) /\ isDiagnostic line) ->
      exists body, parseGoErrors rawOutput sourceCode = body ++ [compilationFailed])
  /\ ((forall line, In line (Split rawOutput newline) -> ~ isDiagnostic line) ->
      parseGoErrors rawOutput sourceCode
      = flat_map (fun l => if String.eqb (TrimSpace l) "" then []
                           else [Println Plain Stdout [AStr (TrimSpace l)]])
          (Split rawOutput newline)).
Proof.
  rewrite parseGoErrors_spec.
  set (lines := Split rawOutput newline).
  assert (existsb (fun l => fst (parseGoErrors_line sourceCode l)) lines = true
          <-> exists line, In line lines /\ isDiagnostic line) as Hfound.
  { rewrite existsb_exists. split; intros (l & Hin & H); exists l; split; auto;
      apply (parseGoErrors_line_found sourceCode l); exact H. }
  split; [|split].
  - rewrite <- Hfound. split.
    + intros Hin. apply in_app_or in Hin as [Hin|Hin].
      * exfalso. apply in_flat_map in Hin as (l & _ & Hin).
        exact (parseGoErrors_line_no_banner _ _ Hin).
      * destruct (existsb _ lines); [reflexivity|destruct Hin].
    + intros ->. apply in_or_app. right. left. reflexivity.
  - intros H. apply Hfound in H. rewrite H. eauto.
  - intros Hnone.
    assert (existsb (fun l => fst (parseGoErrors_line sourceCode l)) lines = false)
      as ->.
    { apply not_true_is_false. intros E.
      apply Hfound in E as (l & Hin & Hd). exact (Hnone l Hin Hd). }
    cbn [failureBanner]. rewrite app_nil_r. clear Hfound.
    induction lines as [|l lines IH]; [reflexivity|].
    cbn [flat_map]. rewrite IH by (intros; apply Hnone; right; assumption).
    f_equal.
    destruct (String.eqb_spec (TrimSpace l) "") as [E|E].
    + rewrite (parseGoErrors_line_blank _ _ E). reflexivity.
    + rewrite (parseGoErrors_line_passthrough sourceCode l E); [reflexivity|].
      intros f ln c m Hs. apply (Hnone l (or_introl eq_refl)).
      split; eauto 6.
Qed.

Lemma parseGoErrors_notice_witness :
  (exists body,
      parseGoErrors ("# gogo-main" +:+ nl +:+ "./main.go:3:2: undefined: x") []
      = body ++ [compilationFailed])
  /\ parseGoErrors ("go: finding module" +:+ nl +:+ nl +:+ "  done") []
     = [ Println Plain Stdout [AStr "go: finding module"];
         Println Plain Stdout [AStr "done"] ].
Proof.
  split.
  - apply (proj1 (proj2 (parseGoErrors_notice _ []))).
    exists "./main.go:3:2: undefined: x". split; [vm_compute; tauto|].
    split; [vm_compute; discriminate|].
    exists "./main.go", "3", "2", "undefined: x", " ".
    vm_compute. repeat split; discriminate.
  - etransitivity.
    + apply (proj2 (proj2 (parseGoErrors_notice _ []))).
      intros line Hin [_ (f & l & c & m & Hs)].
      assert (FindStringSubmatch errorPattern (TrimSpace line) = []) as Hno.
      { vm_compute in Hin. destruct Hin as [<-|[<-|[<-|[]]]]; vm_compute; reflexivity. }
      destruct (FindStringSubmatch_errorPattern (TrimSpace line))
        as [(f' & l' & c' & m' & Hm & _)|[_ H]]; [congruence|].
      exact (H _ _ _ _ Hs).
    + vm_compute. reflexivity.
Defined.

(** ** [createModule]: the version written to go.mod *)

Lemma Split_at_sep (sep : ascii) (a rest : string) :
  allIn (fun c => negb (Ascii.eqb c sep)) a = true ->
  Split (a +:+ String sep rest) sep = a :: Split rest sep.
Proof.
  induction a as [|c a IH]; intros H.
  - rewrite append_empty_l. cbn [Split]. rewrite Ascii.eqb_refl. reflexivity.
  - cbn [allIn] in H. apply andb_prop in H as [Hc Ha].
    rewrite append_cons. cbn [Split].
    apply negb_true_iff in Hc. rewrite Hc, (IH Ha). reflexivity.
Qed.

Lemma Split_no_sep (sep : ascii) (a : string) :
  allIn (fun c => negb (Ascii.eqb c sep)) a = true -> Split a sep = [a].
Proof.
  induction a as [|c a IH]; intros H; [reflexivity|].
  cbn [allIn] in H. apply andb_prop in H as [Hc Ha].
  cbn [Split]. apply negb_true_iff in Hc. rewrite Hc, (IH Ha). reflexivity.
Qed.

Lemma TrimPrefix_go (v : string) : TrimPrefix ("go" +:+ v) "go" = v.
Proof.
  unfold TrimPrefix, HasPrefix. rewrite !append_cons, append_empty_l.
  cbn [String.prefix]. destruct (ascii_dec "g" "g"); [|congruence].
  destruct (ascii_dec "o" "o"); [|congruence].
  destruct v; reflexivity.
Qed.

(** The Go version that [createModule] writes to go.mod is the version
    of the running toolchain without its prefix and cut down to its
    first two components: go1.21.5 gives 1.21, go1.22 stays 1.22, and a
    version with no dot is taken whole. *)
Theorem moduleGoVersion_major_minor (env : Env) (major minor rest : string) :
  allIn notDot major = true -> allIn notDot minor = true ->
  (Version env = "go" +:+ major +:+ "." +:+ minor +:+ "." +:+ rest ->
   moduleGoVersion env = major +:+ "." +:+ minor)
  /\ (Version env = "go" +:+ major +:+ "." +:+ minor ->
      moduleGoVersion env = major +:+ "." +:+ minor)
  /\ (Version env = "go" +:+ major -> moduleGoVersion env = major).
Proof.
  intros Hmaj Hmin. unfold moduleGoVersion. split; [|split]; intros ->;
    rewrite TrimPrefix_go.
  - rewrite !append_cons, !append_empty_l.
    rewrite (Split_at_sep "." major _ Hmaj), (Split_at_sep "." minor _ Hmin).
    reflexivity.
  - rewrite !append_cons, !append_empty_l.
    rewrite (Split_at_sep "." major _ Hmaj), (Split_no_sep "." minor Hmin).
    reflexivity.
  - rewrite (Split_no_sep "." major Hmaj). reflexivity.
Qed.

Lemma moduleGoVersion_major_minor_witness :
  moduleGoVersion (host 1000 homeCache noFault false None "") = "1" +:+ "." +:+ "21".
Proof.
  apply (proj1 (moduleGoVersion_major_minor
                  (host 1000 homeCache noFault false None "") "1" "21" "5"
                  eq_refl eq_refl)).
  reflexivity.
Defined.

(** ** The runs of [runCached], shape by shape *)

Lemma post_ret {A : Type} (a : A) (w : World) (Q : A -> World -> Prop) :
  Q a w -> post (mret a) w Q.
Proof. intros H. exact H. Qed.

Lemma post_bind {A B : Type} (m : M A) (k : A -> M B) (w : World)
    (Q : B -> World -> Prop) :
  post m w (fun a w1 => post (k a) w1 Q) -> post (m ≫= k) w Q.
Proof.
  unfold post, mbind, M_bind. destruct (m w) as [a w1]. intros H. exact H.
Qed.

Lemma post_emit (e : event) (w : World) (Q : unit -> World -> Prop) :
  Q tt {| fs := fs w; trace := e :: trace w |} -> post (emit e) w Q.
Proof. intros H. exact H. Qed.

Lemma post_printAll (os : list output) (w : World) (Q : unit -> World -> Prop) :
  Q tt {| fs := fs w; trace := rev (map EvPrint os) ++ trace w |} ->
  post (printAll os) w Q.
Proof.
  revert w; induction os as [|o os IH]; intros w H; cbn [printAll].
  - destruct w. exact H.
  - apply post_bind, post_emit, IH. cbn [fs trace].
    cbn [map rev] in H. rewrite <- app_assoc in H. exact H.
Qed.

Lemma post_sys (env : Env) (c : syscall)
    (eff : gmap string Node -> result (gmap string Node)) (w : World)
    (Q : option error -> World -> Prop) :
  (forall r m,
      (r = None -> eff (fs w) = Ok m) -> (r <> None -> m = fs w) ->
      Q r {| fs := m; trace := EvCall c r :: trace w |}) ->
  post (sys env c eff) w Q.
Proof.
  intros H. unfold post, sys.
  destruct (fault env (trace w) c) as [e|]; [apply H; congruence|].
  destruct (eff (fs w)) as [m|e]; apply H; congruence.
Qed.

Lemma post_os_MkdirAll (env : Env) (path : string) (perm : Z) (w : World)
    (Q : option error -> World -> Prop) :
  (forall r m, Q r {| fs := m; trace := EvCall (MkdirAll path perm) r :: trace w |}) ->
  post (os_MkdirAll env path perm) w Q.
Proof. intros H. apply post_sys. intros r m _ _. apply H. Qed.

Lemma post_os_WriteFile (env : Env) (name : string) (data : list byte) (perm : Z)
    (w : World) (Q : option error -> World -> Prop) :
  (forall r m,
      Q r {| fs := m; trace := EvCall (WriteFile name data perm) r :: trace w |}) ->
  post (os_WriteFile env name data perm) w Q.
Proof. intros H. apply post_sys. intros r m _ _. apply H. Qed.

Lemma post_os_Chmod (env : Env) (name : string) (mode : Z) (w : World)
    (Q : option error -> World -> Prop) :
  (forall r m, Q r {| fs := m; trace := EvCall (Chmod name mode) r :: trace w |}) ->
  post (os_Chmod env name mode) w Q.
Proof. intros H. apply post_sys. intros r m _ _. apply H. Qed.

(** [os.RemoveAll] creates nothing, and when it returns no error nothing
    is left at or below a path that is not empty. *)
Lemma post_os_RemoveAll (env : Env) (path : string) (w : World)
    (Q : option error -> World -> Prop) :
  (forall r m,
      (forall p, fs w !! p = None -> m !! p = None) ->
      (r = None -> path <> "" -> forall p, under env path p = true -> m !! p = None) ->
      Q r {| fs := m; trace := EvCall (RemoveAll path) r :: trace w |}) ->
  post (os_RemoveAll env path) w Q.
Proof.
  intros H. apply post_sys. intros r m Hok Herr. apply H.
  - intros p Hp. destruct r as [e|].
    + rewrite Herr by discriminate. exact Hp.
    + specialize (Hok eq_refl). destruct (String.eqb path "").
      * injection Hok as <-. exact Hp.
      * injection Hok as <-. apply map_lookup_filter_None. left. exact Hp.
  - intros -> Hne p Hp. specialize (Hok eq_refl).
    apply String.eqb_neq in Hne. rewrite Hne in Hok. injection Hok as <-.
    apply map_lookup_filter_None. right. intros x _. cbn [fst]. congruence.
Qed.

Lemma post_os_MkdirTemp (env : Env) (dir pattern : string) (w : World)
    (Q : result string -> World -> Prop) :
  (forall e, Q (Fail e)
               {| fs := fs w; trace := EvMkdirTemp pattern (Fail e) :: trace w |}) ->
  (forall p m, Q (Ok p) {| fs := m; trace := EvMkdirTemp pattern (Ok p) :: trace w |}) ->
  post (os_MkdirTemp env dir pattern) w Q.
Proof.
  intros Hf Ho. unfold post, os_MkdirTemp.
  destruct (fault env (trace w) (MkdirTemp dir pattern)); [apply Hf|apply Ho].
Qed.

Lemma post_os_Stat (env : Env) (name : string) (w : World)
    (Q : result Node -> World -> Prop) :
  (forall e, Q (Fail e)
               {| fs := fs w; trace := EvCall (Stat name) (Some e) :: trace w |}) ->
  (forall info, fs w !! name = Some info ->
                Q (Ok info)
                  {| fs := fs w; trace := EvCall (Stat name) None :: trace w |}) ->
  post (os_Stat env name) w Q.
Proof.
  intros Hf Ho. unfold post, os_Stat.
  destruct (fault env (trace w) (Stat name)); [apply Hf|].
  destruct (fs w !! name) eqn:E; [apply Ho; reflexivity|apply Hf].
Qed.

Lemma post_cmd_Run (env : Env) (c : command) (w : World)
    (Q : exec_result -> World -> Prop) :
  (forall r, Q r {| fs := exec_fs r; trace := EvExec c (exec_err r) :: trace w |}) ->
  post (cmd_Run env c) w Q.
Proof. intros H. apply H. Qed.

Lemma post_time_Now (env : Env) (w : World) (Q : Z -> World -> Prop) :
  (forall now, Q now w) -> post (time_Now env) w Q.
Proof. intros H. apply H. Qed.

(** The new events of a world whose trace is written out over [base]. *)
Ltac prefix_of t base :=
  lazymatch t with
  | base => constr:(@nil event)
  | ?e :: ?t' => let p := prefix_of t' base in constr:(e :: p)
  | ?l ++ ?t' => let p := prefix_of t' base in constr:(l ++ p)
  end.

(** One step of a run, by the lemma of its first operation. *)
Ltac run_step :=
  lazymatch goal with
  | |- post (mret _) _ _ => apply post_ret
  | |- post (_ ≫= _) _ _ => apply post_bind
  | |- post (orReturn _ _) _ _ => unfold orReturn
  | |- post (deferring _ _) _ _ => unfold deferring
  | |- post (print _) _ _ => apply post_emit
  | |- post (printAll _) _ _ => apply post_printAll
  | |- post (os_MkdirAll _ _ _) _ _ => apply post_os_MkdirAll; intros ? ?
  | |- post (os_WriteFile _ _ _ _) _ _ => apply post_os_WriteFile; intros ? ?
  | |- post (os_Chmod _ _ _) _ _ => apply post_os_Chmod; intros ? ?
  | |- post (os_RemoveAll _ _) _ _ => apply post_os_RemoveAll; intros ? ? ? ?
  | |- post (os_MkdirTemp _ _ _) _ _ => apply post_os_MkdirTemp; [intros ?|intros ? ?]
  | |- post (os_Stat _ _) _ _ => apply post_os_Stat; [intros ?|intros ? ?]
  | |- post (cmd_Run _ _) _ _ => apply post_cmd_Run; intros ?
  | |- post (time_Now _) _ _ => apply post_time_Now; intros ?
  | |- post (time_Since _ _) _ _ => unfold time_Since
  | |- post (runBinary _ _) _ _ => unfold runBinary
  | |- post (createModule _ _ _) _ _ => unfold createModule
  | |- post (buildWith _ _ _ _) _ _ => unfold buildWith
  | |- post (match ?x with _ => _ end) _ _ => destruct x eqn:?
  | |- post (if ?x then _ else _) _ _ => destruct x eqn:?
  end; cbv beta; cbn [fs trace] in *.

Lemma runCached_shapes (env : Env) (code : list byte) (w : World) :
  post (runCached env code) w
    (cachedPost env code (fst (getCachePaths env code))
       (snd (getCachePaths env code)) w).
Proof.
  unfold runCached. destruct (getCachePaths env code) as [cacheDir binaryPath].
  cbn [fst snd]. unfold runCached_lookup, runCached_miss, runCached_build.
  repeat run_step.
  all: unfold cachedPost; cbn [fs trace].
  all: match goal with
       | |- exists new, ?T = new ++ ?base /\ _ =>
           let p := prefix_of T base in exists p
       end.
  all: split; [cbn [app]; rewrite <- ?app_assoc; reflexivity|].
  all: split;
    [ try (cbn [rev app]; solve [econstructor])
    | try (intros rr Hin Hrr Hne q Hq; cbn [fs]; cbn [In] in Hin;
           repeat (destruct Hin as [Hin|Hin];
                   [ first [ discriminate Hin
                           | inversion Hin; subst; solve [eauto 6] ] | ]);
           contradiction) ].
  all: try match goal with
       | Hw : negb (String.eqb (GOOS _) "windows") = true
         |- CachedRun _ _ _ _ (exec_err _) _ =>
           cbn [rev app]; apply negb_true_iff in Hw;
           eapply (Run_built _ _ _ _ _ _ [_]); rewrite Hw; eauto
       | Hw : negb (String.eqb (GOOS _) "windows") = false
         |- CachedRun _ _ _ _ (exec_err _) _ =>
           cbn [rev app]; apply negb_false_iff in Hw;
           eapply (Run_built _ _ _ _ _ _ []); rewrite Hw; reflexivity
       | Hs : String.eqb (exec_stderr ?r) "" = false
         |- CachedRun _ _ _ _ (Some (Errorf "compilation failed" [])) _ =>
           cbn [rev]; rewrite rev_app_distr, rev_involutive; cbn [rev app];
           rewrite <- !app_assoc; cbn [app];
           apply String.eqb_neq in Hs;
           eapply (Run_build_fails _ _ _ _ _ _ _ (exec_stderr r)); exact Hs
       end.
  all: intros rr Hin Hrr Hne q Hq; cbn [fs];
    destruct Hin as [Hin|[Hin|Hin]];
    [ inversion Hin; subst; solve [eauto 6]
    | inversion Hin; subst; solve [eauto 6]
    | exfalso; apply in_app_or in Hin as [Hin|Hin];
      [ apply in_rev, in_map_iff in Hin as (o & Ho & _); discriminate Ho
      | cbn [In] in Hin;
        repeat (destruct Hin as [Hin|Hin]; [discriminate Hin|]); exact Hin ] ].
Qed.

(** ** The layout of the cache *)

Lemma append_assoc (a b c : string) : (a +:+ b) +:+ c = a +:+ b +:+ c.
Proof.
  induction a as [|x a IH]; [reflexivity|].
  rewrite !append_cons, IH. reflexivity.
Qed.

Lemma append_empty_r (a : string) : a +:+ "" = a.
Proof. induction a as [|x a IH]; [reflexivity|]. rewrite append_cons, IH. reflexivity. Qed.

Lemma prefix_append (a b : string) : String.prefix a (a +:+ b) = true.
Proof.
  induction a as [|x a IH].
  - destruct b; reflexivity.
  - rewrite append_cons. cbn [String.prefix].
    destruct (ascii_dec x x); [exact IH|congruence].
Qed.

Lemma Separator_nonempty (env : Env) : Separator env <> "".
Proof. unfold Separator. destruct (String.eqb _ _); discriminate. Qed.

Lemma Join_pair (env : Env) (a b : string) :
  b <> "" ->
  Join env [a; b] = if String.eqb a "" then b else a +:+ Separator env +:+ b.
Proof.
  intros Hb. unfold Join.
  destruct (String.eqb_spec a "") as [->|Ha].
  - rewrite filter_cons_False by (cbn; auto).
    rewrite filter_cons_True by (apply String.eqb_neq in Hb; rewrite Hb; exact I).
    reflexivity.
  - rewrite filter_cons_True by (apply String.eqb_neq in Ha; rewrite Ha; exact I).
    rewrite filter_cons_True by (apply String.eqb_neq in Hb; rewrite Hb; exact I).
    reflexivity.
Qed.

Lemma Join_nonempty_pair (env : Env) (a b : string) : b <> "" -> Join env [a; b] <> "".
Proof.
  intros Hb. rewrite Join_pair by exact Hb.
  destruct (String.eqb a ""); [exact Hb|].
  destruct a; [|discriminate]. rewrite append_empty_l.
  pose proof (Separator_nonempty env). destruct (Separator env); [congruence|discriminate].
Qed.

Lemma Join_triple (env : Env) (a b c : string) :
  b <> "" ->
  Join env [a; b; c]
  = if String.eqb c "" then Join env [a; b]
    else Join env [a; b] +:+ Separator env +:+ c.
Proof.
  intros Hb. rewrite (Join_pair env a b Hb). unfold Join.
  assert (forall x, x <> "" -> Is_true (negb (String.eqb x ""))) as Hyes.
  { intros x Hx. apply String.eqb_neq in Hx. rewrite Hx. exact I. }
  destruct (String.eqb_spec c "") as [->|Hc], (String.eqb_spec a "") as [->|Ha].
  - rewrite filter_cons_False by (cbn; auto).
    rewrite filter_cons_True by auto.
    rewrite filter_cons_False by (cbn; auto). reflexivity.
  - rewrite !filter_cons_True by auto.
    rewrite filter_cons_False by (cbn; auto). reflexivity.
  - rewrite filter_cons_False by (cbn; auto).
    rewrite !filter_cons_True by auto. reflexivity.
  - rewrite !filter_cons_True by auto. cbn [filter joinWith].
    rewrite !append_assoc. reflexivity.
Qed.

Lemma under_refl (env : Env) (p : string) : under env p p = true.
Proof. unfold under. rewrite String.eqb_refl. reflexivity. Qed.

Lemma under_below (env : Env) (root rest : string) :
  under env root (root +:+ Separator env +:+ rest) = true.
Proof.
  unfold under, HasPrefix. rewrite <- append_assoc, prefix_append.
  apply orb_true_r.
Qed.

Lemma under_join (env : Env) (dir name : string) :
  dir <> "" -> name <> "" -> under env dir (Join env [dir; name]) = true.
Proof.
  intros Hd Hn. rewrite Join_pair by exact Hn.
  apply String.eqb_neq in Hd. rewrite Hd. apply under_below.
Qed.

Lemma prefix_weaken (p b c : string) :
  String.prefix p b = true -> String.prefix p (b +:+ c) = true.
Proof.
  revert b; induction p as [|x p IH]; intros b H.
  - destruct (b +:+ c); reflexivity.
  - destruct b as [|y b]; [discriminate H|].
    rewrite append_cons. cbn [String.prefix] in *.
    destruct (ascii_dec x y); [auto|discriminate].
Qed.

Lemma under_trans (env : Env) (a b rest : string) :
  under env a b = true ->
  under env a (b +:+ Separator env +:+ rest) = true.
Proof.
  unfold under, HasPrefix. intros H. apply orb_prop in H as [H|H].
  - apply String.eqb_eq in H. subst b.
    rewrite <- append_assoc, prefix_append. apply orb_true_r.
  - rewrite (prefix_weaken _ _ _ H). apply orb_true_r.
Qed.

Lemma getCachePaths_layout (env : Env) (code : list byte) (root : string) :
  UserCacheDir env = Ok root ->
  let gogo := Join env [root; "gogo"] in
  let cacheDir := fst (getCachePaths env code) in
  let binaryPath := snd (getCachePaths env code) in
  cacheDir <> ""
  /\ under env gogo cacheDir = true
  /\ under env gogo binaryPath = true
  /\ under env cacheDir binaryPath = true
  /\ under env cacheDir (Join env [cacheDir; "main.go"]) = true
  /\ under env cacheDir (Join env [cacheDir; "meta.txt"]) = true.
Proof.
  intros Hroot gogo cacheDir binaryPath.
  unfold cacheDir, binaryPath, getCachePaths. rewrite Hroot. cbn [fst snd].
  fold gogo.
  set (h := slice_to (sha256_hex env code) 16).
  set (bin := if String.eqb (GOOS env) "windows" then "run.exe" else "run").
  assert (bin <> "") as Hbin by (unfold bin; destruct (String.eqb _ _); discriminate).
  assert (gogo <> "") as Hgogo by (apply Join_nonempty_pair; discriminate).
  assert (Join env [root; "gogo"; h] <> "" /\ under env gogo (Join env [root; "gogo"; h]) = true)
    as [Hdir Hunder].
  { rewrite Join_triple by discriminate. fold gogo.
    destruct (String.eqb h ""); [split; [exact Hgogo|apply under_refl]|].
    split; [|apply under_below].
    destruct gogo; [congruence|discriminate]. }
  set (dir := Join env [root; "gogo"; h]) in *.
  split; [exact Hdir|]. split; [exact Hunder|].
  split.
  { rewrite Join_pair by exact Hbin. apply String.eqb_neq in Hdir. rewrite Hdir.
    apply under_trans, Hunder. }
  repeat split; apply under_join; (exact Hdir || exact Hbin || discriminate).
Qed.



(** Every run of [runCached] has one of the ten shapes of [CachedRun]:
    a hit that runs the cached binary, or a miss that ends at the first
    step that fails, else with the run of the new binary, each with the
    result and the events written there, in that order and no others. *)
Theorem runCached_run_shapes (env : Env) (code : list byte) (w : World) :
  exists new,
    trace (snd (runCached env code w)) = new ++ trace w
    /\ CachedRun env code (fst (getCachePaths env code))
         (snd (getCachePaths env code)) (fst (runCached env code w)) (rev new).
Proof.
  destruct (runCached_shapes env code w) as (new & E & Hshape & _). eauto.
Qed.

(** Membership in the events of a shape, case by case. *)
Ltac in_cases H :=
  unfold missEvents, buildEvents, tidyEvents, moduleEvents, tidyCmd, buildCmd in H;
  cbn [app] in H; cbn [In] in H; rewrite ?in_app_iff in H; cbn [In] in H;
  rewrite ?in_map_iff in H.

Ltac split_cases :=
  repeat match goal with
         | H : _ \/ _ |- _ => destruct H
         | H : False |- _ => destruct H
         | H : exists _, _ |- _ => destruct H
         | H : _ /\ _ |- _ => destruct H
         end;
  try match goal with H : _ = _ |- _ => discriminate H end.

Ltac chmod_cases :=
  try match goal with
      | H : if ?b then _ else _ |- _ =>
          destruct b; [subst|destruct H as [? ->]]
      end.

(** When go mod tidy fails in a cached run, the run returns that failure
    wrapped as its own kind of error, go mod tidy is the only command
    the run has executed (neither the compiler nor any binary), and the
    one workspace it made is removed by its last call. *)
Theorem tidy_failure_stops_before_compiler (env : Env) (code : list byte) (w : World)
    (new : list event) (tmpDir : string) (err : error) :
  trace (snd (runCached env code w)) = new ++ trace w ->
  In (EvExec (tidyCmd tmpDir) (Some err)) new ->
  fst (runCached env code w) = Some (Errorf "go mod tidy failed: %w" [AErr err])
  /\ commandsRun new = [tidyCmd tmpDir]
  /\ workspacesMade new = [tmpDir]
  /\ exists rr rest, new = EvCall (RemoveAll tmpDir) rr :: rest.
Proof.
  intros Htrace Hin.
  destruct (runCached_shapes env code w) as (new' & E & Hshape & _).
  rewrite E in Htrace. apply app_inv_tail in Htrace. subst new'.
  unfold commandsRun, workspacesMade.
  apply in_rev in Hin.
  remember (rev new) as evs eqn:Hevs.
  remember (fst (runCached env code w)) as r eqn:Hr.
  destruct Hshape; chmod_cases; in_cases Hin; split_cases.
  match goal with H : EvExec _ _ = EvExec _ _ |- _ => inversion H; subst end.
  split; [reflexivity|]. split; [reflexivity|]. split; [reflexivity|].
  rewrite <- (rev_involutive new), <- Hevs.
  eexists _, _. reflexivity.
Qed.

Lemma no_commands_in_prints (os : list output) :
  flat_map (fun e => match e with EvExec c _ => [c] | _ => [] end)
    (map EvPrint os) = [].
Proof. induction os as [|o os IH]; [reflexivity|exact IH]. Qed.

(** When go build fails in a cached run, the run returns a build error,
    no binary is executed, and [os.RemoveAll] is called on the entry
    directory; when that call returns no error, nothing is left at or
    below the entry directory, the binary included, so that the next
    lookup of this source is a miss. *)
Theorem compile_failure_rolls_back (env : Env) (code : list byte) (w : World)
    (root : string) (new : list event) (tmpDir : string) (err : error) :
  UserCacheDir env = Ok root ->
  let cacheDir := fst (getCachePaths env code) in
  let binaryPath := snd (getCachePaths env code) in
  trace (snd (runCached env code w)) = new ++ trace w ->
  In (EvExec (buildCmd binaryPath tmpDir) (Some err)) new ->
  (fst (runCached env code w) = Some (Errorf "compilation failed" [])
   \/ fst (runCached env code w) = Some (Errorf "build failed: %v" [AErr err]))
  /\ commandsRun new = [tidyCmd tmpDir; buildCmd binaryPath tmpDir]
  /\ exists rc,
       In (EvCall (RemoveAll cacheDir) rc) new
       /\ (rc = None ->
           nothingUnder env cacheDir (snd (runCached env code w))
           /\ fs (snd (runCached env code w)) !! binaryPath = None).
Proof.
  intros Hroot cacheDir binaryPath Htrace Hin.
  destruct (getCachePaths_layout env code root Hroot) as (Hne & _ & _ & Hbin & _).
  fold cacheDir binaryPath in Hne, Hbin.
  destruct (runCached_shapes env code w) as (new' & E & Hshape & Hfs).
  rewrite E in Htrace. apply app_inv_tail in Htrace. subst new'.
  fold cacheDir binaryPath in Hshape, Hfs.
  assert (forall rc, In (EvCall (RemoveAll cacheDir) rc) (rev new) ->
            In (EvCall (RemoveAll cacheDir) rc) new
            /\ (rc = None ->
                nothingUnder env cacheDir (snd (runCached env code w))
                /\ fs (snd (runCached env code w)) !! binaryPath = None)) as Hroll.
  { intros rc Hrc. apply in_rev in Hrc. split; [exact Hrc|].
    intros ->. assert (nothingUnder env cacheDir (snd (runCached env code w))) as Hn
      by (apply (Hfs None); auto).
    split; [exact Hn|apply Hn, Hbin]. }
  unfold commandsRun. apply in_rev in Hin.
  remember (rev new) as evs eqn:Hevs.
  remember (fst (runCached env code w)) as r eqn:Hr.
  destruct Hshape; chmod_cases; in_cases Hin; split_cases.
  all: match goal with H : EvExec _ _ = EvExec _ _ |- _ => inversion H; subst end.
  - split; [right; reflexivity|]. split; [reflexivity|].
    exists rc. apply Hroll. rewrite !in_app_iff. right. right. left. reflexivity.
  - split; [left; reflexivity|]. split.
    + rewrite !flat_map_app, no_commands_in_prints. reflexivity.
    + exists rc. apply Hroll. rewrite !in_app_iff. right. right. right. left.
      reflexivity.
Qed.



Lemma tidy_failure_stops_before_compiler_witness :
  fst (runCached (host 1000 homeCache noFault true None "package main")
         (list_byte_of_string "package main") emptyWorld)
  = Some (Errorf "go mod tidy failed: %w" [AErr (ExitError "exit status 1")])
  /\ commandsRun
       (trace (snd (runCached (host 1000 homeCache noFault true None "package main")
                      (list_byte_of_string "package main") emptyWorld)))
     = [tidyCmd "/tmp/gogo-build-42"]
  /\ workspacesMade
       (trace (snd (runCached (host 1000 homeCache noFault true None "package main")
                      (list_byte_of_string "package main") emptyWorld)))
     = ["/tmp/gogo-build-42"]
  /\ exists rr rest,
       trace (snd (runCached (host 1000 homeCache noFault true None "package main")
                     (list_byte_of_string "package main") emptyWorld))
       = EvCall (RemoveAll "/tmp/gogo-build-42") rr :: rest.
Proof.
  apply (tidy_failure_stops_before_compiler
           (host 1000 homeCache noFault true None "package main")
           (list_byte_of_string "package main") emptyWorld _
           "/tmp/gogo-build-42" (ExitError "exit status 1")).
  - symmetry. apply app_nil_r.
  - vm_compute. tauto.
Defined.

Lemma compile_failure_rolls_back_witness :
  commandsRun
    (trace (snd (runCached
                   (host 1000 homeCache noFault false
                      (Some "main.go:1:13: syntax error: x") "package main")
                   (list_byte_of_string "package main") emptyWorld)))
  = [tidyCmd "/tmp/gogo-build-42"; buildCmd entryBinary "/tmp/gogo-build-42"].
Proof.
  apply (compile_failure_rolls_back
           (host 1000 homeCache noFault false
              (Some "main.go:1:13: syntax error: x") "package main")
           (list_byte_of_string "package main") emptyWorld "/home/u/.cache" _
           "/tmp/gogo-build-42" (ExitError "exit status 1") eq_refl).
  - symmetry. apply app_nil_r.
  - vm_compute. tauto.
Defined.

(** ** The runs of [runOnce] *)

Lemma runOnce_shapes (env : Env) (code : list byte) (w : World) :
  post (runOnce env code) w
    (fun r w' => exists new,
         trace w' = new ++ trace w /\ OnceRun env code r (rev new)).
Proof.
  unfold runOnce, runOnce_go.
  repeat run_step.
  all: match goal with
       | |- exists new, ?T = new ++ ?base /\ _ =>
           let p := prefix_of T base in exists p
       end.
  all: split; [reflexivity|cbn [rev app]; econstructor].
Qed.

(** Every run of [runOnce] has one of five shapes, and stays in its
    workspace: besides making the temporary directory, the only system
    calls it makes are the writes of go.mod and main.go inside it and
    its removal; nothing of the cache is read, written or removed. *)
Theorem runOnce_run_shapes (env : Env) (code : list byte) (w : World) :
  exists new,
    trace (snd (runOnce env code w)) = new ++ trace w
    /\ OnceRun env code (fst (runOnce env code w)) (rev new)
    /\ forall c r,
         In (EvCall c r) new ->
         exists tmpDir,
           workspacesMade new = [tmpDir]
           /\ (c = WriteFile (Join env [tmpDir; "go.mod"]) (goModBytes env) perm_0644
               \/ c = WriteFile (Join env [tmpDir; "main.go"]) code perm_0644
               \/ c = RemoveAll tmpDir).
Proof.
  destruct (runOnce_shapes env code w) as (new & E & Hshape).
  exists new. split; [exact E|]. split; [exact Hshape|].
  intros c r Hin. apply in_rev in Hin. unfold workspacesMade.
  remember (rev new) as evs eqn:Hevs.
  remember (fst (runOnce env code w)) as res eqn:Hres.
  destruct Hshape; in_cases Hin; split_cases.
  all: match goal with H : EvCall _ _ = EvCall _ _ |- _ => inversion H; subst end.
  all: eexists; split; [reflexivity|]; auto.
Qed.

(** ** The earlier runner *)

Lemma grows_runWithGoModule_go (env : Env) (code : list byte) (tmpDir : string) :
  grows notTemp (Gorun.runWithGoModule_go env code tmpDir).
Proof. unfold Gorun.runWithGoModule_go, Gorun.wrapErr. repeat grows_step. Qed.

(** The runner under cmd/ removes its workspace like the cached runner:
    the last call of [runWithGoModule], on every path on which it made
    the directory, is its removal, and unless that fails nothing is left
    of it. *)
Theorem gorun_workspace_removed (env : Env) (code : list byte) (w : World)
    (new : list event) (pattern tmpDir : string) :
  trace (snd (Gorun.runWithGoModule env code w)) = new ++ trace w ->
  In (EvMkdirTemp pattern (Ok tmpDir)) new ->
  exists r rest,
    new = EvCall (RemoveAll tmpDir) r :: rest
    /\ (r = None -> nothingUnder env tmpDir (snd (Gorun.runWithGoModule env code w))).
Proof.
  intros Htrace Hin.
  assert (cleansUp env (Gorun.runWithGoModule env code)) as H.
  { unfold Gorun.runWithGoModule.
    apply (cleansUp_workspace env "gogo-*"
             (fun err => Some (Errorf "failed to create directory: %w" [AErr err]))
             (Gorun.runWithGoModule_go env code)).
    intros t. apply grows_runWithGoModule_go. }
  destruct (H w) as (new' & E & Hclean).
  rewrite E in Htrace. apply app_inv_tail in Htrace. subst new'.
  exact (Hclean _ _ Hin).
Qed.

(** ** The two [main] functions *)

Lemma validateCode_rejects_marker (code : list byte) :
  startsWithMarker code = true -> validateCode code = Some errNoPackage.
Proof.
  intros H. unfold validateCode.
  destruct (scanTexts_directive code H) as [->|(t & rest & ->)]; [reflexivity|].
  cbn [validateCode_scan].
  destruct (TrimSpace_hash t) as [s' ->]. reflexivity.
Qed.

Lemma stripShebang_validated (code : list byte) :
  validateCode code = None -> stripShebang code = (code, None).
Proof.
  intros Hv. apply stripShebang_unmarked.
  destruct (startsWithMarker code) eqn:E; [|reflexivity].
  rewrite (validateCode_rejects_marker code E) in Hv. discriminate.
Qed.

Lemma validateCode_nonempty (code : list byte) :
  validateCode code = None -> code <> [].
Proof. intros H ->. discriminate H. Qed.

(** The cached runner ends with status 0 only after it has run the
    source twice: once as read, before any check, and once more after
    the source, which is not empty, has passed [validateCode]; both runs
    are of the same bytes and both returned no error. *)
Theorem main_success_runs_twice (env : Env) (flags : Flags) (w : World) :
  showVersion flags = false -> clearCache flags = false ->
  fst (main env flags w) = 0 ->
  exists code w1 w2,
    readInput env (arg0 flags) w = (Ok code, w1)
    /\ code <> []
    /\ validateCode code = None
    /\ runEither env flags code w1 = (None, w2)
    /\ runEither env flags code w2 = (None, snd (main env flags w)).
Proof.
  intros Hv Hc Hexit.
  remember (main env flags w) as res eqn:Hres.
  unfold main in Hres. rewrite Hv, Hc in Hres.
  unfold mbind, M_bind in Hres.
  destruct (readInput env (arg0 flags) w) as [[code|e] w1];
    [|subst res; discriminate Hexit].
  destruct (runEither env flags code w1) as [[e|] w2] eqn:E1;
    [subst res; discriminate Hexit|].
  destruct (length code =? 0)%nat eqn:El.
  { destruct (printAll usage w2). subst res. discriminate Hexit. }
  destruct (validateCode code) eqn:Eval; [subst res; discriminate Hexit|].
  rewrite (stripShebang_validated code Eval) in Hres.
  destruct (runEither env flags code w2) as [[e|] w3] eqn:E2;
    [subst res; discriminate Hexit|].
  subst res. exists code, w1, w2. cbn [snd mret M_ret].
  repeat split; auto. apply validateCode_nonempty, Eval.
Qed.

(** The runner under cmd/ checks before it builds.  On empty input it
    prints its usage and ends with status 0; on a source that fails
    [validateCode] it prints the error and ends with status 1; in both
    cases nothing but the printing happens.  A source that passes is
    echoed and then built and run whole, once, and the status is 0
    exactly when that run returned no error. *)
Theorem gorun_checks_before_building (env : Env) (args : list string)
    (code : list byte) (w w1 : World) :
  Gorun.readInput env args w = (Ok code, w1) ->
  (code = [] ->
   Gorun.main env args w
   = (0, {| fs := fs w1; trace := rev (map EvPrint Gorun.usage) ++ trace w1 |}))
  /\ (code <> [] -> forall e, validateCode code = Some e ->
      Gorun.main env args w
      = (1, {| fs := fs w1;
               trace := EvPrint (Printf Plain Stderr ("Ошибка валидации: %v" +:+ nl)
                                   [AErr e]) :: trace w1 |}))
  /\ (validateCode code = None ->
      let r := Gorun.runWithGoModule env code (gorunEcho code w1) in
      Gorun.main env args w
      = (match fst r with Some _ => 1 | None => 0 end,
         {| fs := fs (snd r);
            trace :=
              EvPrint (match fst r with
                       | Some e => Printf Plain Stderr ("error: %v" +:+ nl) [AErr e]
                       | None => Println Plain Stderr
                                   [AStr (nl +:+ "Выполнено успешно!")]
                       end) :: trace (snd r) |})).
Proof.
  intros Hread.
  remember (Gorun.main env args w) as res eqn:Hres.
  unfold Gorun.main in Hres. unfold mbind at 1, M_bind at 1 in Hres.
  rewrite Hread in Hres.
  split; [|split].
  - intros ->. subst res. reflexivity.
  - intros Hne e Hv. destruct code as [|b code]; [congruence|].
    cbn [length Nat.eqb] in Hres. rewrite Hv in Hres. subst res. reflexivity.
  - intros Hv r. pose proof (validateCode_nonempty code Hv) as Hne.
    pose proof (stripShebang_validated code Hv) as Hs.
    destruct code as [|b code]; [congruence|]. cbn [length Nat.eqb] in Hres.
    rewrite Hv, Hs in Hres.
    unfold mbind, M_bind, print, emit in Hres. cbn [fs trace] in Hres.
    fold (gorunEcho (b :: code) w1) in Hres. fold r in Hres.
    subst res. destruct r as [[e|] w3]; reflexivity.
Qed.

(** On a hit [runCached] calls [os.Stat] once, prints its notice and
    executes the cached binary: no toolchain command is run, no
    directory or file is made, and the result and the file system are
    those the binary leaves. *)
Theorem cache_hit_runs_binary_only (env : Env) (code : list byte) (w : World)
    (info : Node) :
  let binaryPath := snd (getCachePaths env code) in
  let looked := EvCall (Stat binaryPath) None :: trace w in
  let notice := EvPrint (Printf Yellow Stdout "Using cached binary" []) in
  let r := run env (notice :: looked) (Command binaryPath [] "") (fs w) in
  fault env (trace w) (Stat binaryPath) = None ->
  fs w !! binaryPath = Some info ->
  clock env looked - ModTime info < 72 * Hour ->
  runCached env code w
  = (exec_err r,
     {| fs := exec_fs r;
        trace := EvExec (Command binaryPath [] "") (exec_err r) :: notice :: looked |}).
Proof.
  intros binaryPath looked notice r Hfault Hfs Hfresh.
  unfold runCached. rewrite (surjective_pairing (getCachePaths env code)).
  fold binaryPath. unfold mbind at 1, M_bind at 1.
  rewrite runCached_lookup_run. unfold os_Stat. rewrite Hfault, Hfs.
  cbn [fst snd trace]. fold looked.
  destruct (Z.ltb_spec (clock env looked - ModTime info) (72 * Hour)); [|lia].
  reflexivity.
Qed.

(** ** The line limit of the scanner *)

Lemma rawLines_first (line rest : list byte) :
  ~ In byte_nl line -> line <> [] ->
  rawLines line = [line]
  /\ rawLines (line ++ byte_nl :: rest) = line :: rawLines rest.
Proof.
  induction line as [|b line IH]; intros Hno Hne; [congruence|].
  assert (Byte.eqb b byte_nl = false) as Hb.
  { destruct (Byte.eqb b byte_nl) eqn:E; [|reflexivity].
    apply Byte.byte_dec_bl in E. exfalso. apply Hno. left. exact E. }
  assert (~ In byte_nl line) as Hno' by (intros H; apply Hno; right; exact H).
  cbn [rawLines app]. rewrite Hb.
  destruct line as [|c line].
  - split; [reflexivity|]. cbn [app rawLines].
    change (Byte.eqb byte_nl byte_nl) with true. cbn iota. reflexivity.
  - destruct (IH Hno' ltac:(discriminate)) as [E1 E2].
    rewrite E1. cbn [app] in E2 |- *. rewrite E2. split; reflexivity.
Qed.

(** The scanner of [validateCode] gives up at a line of 65536 bytes or
    more, and the loop ends as at the end of the input: a source whose
    first line is that long is rejected whatever the line is and
    whatever follows it, a package clause included. *)
Theorem validateCode_line_limit (line rest : list byte) :
  ~ In byte_nl line ->
  MaxScanTokenSize <= Z.of_nat (length line) ->
  validateCode line = Some errNoPackage
  /\ validateCode (line ++ byte_nl :: rest) = Some errNoPackage.
Proof.
  intros Hno Hlen.
  assert (line <> []) as Hne.
  { intros ->. unfold MaxScanTokenSize in Hlen. cbn in Hlen. lia. }
  destruct (rawLines_first line rest Hno Hne) as [E1 E2].
  unfold validateCode, scanTexts. rewrite E1, E2. cbn [scannable].
  destruct (Z.ltb_spec (Z.of_nat (length line)) MaxScanTokenSize); [lia|].
  split; reflexivity.
Qed.

Lemma validateCode_line_limit_witness :
  validateCode (repeat x2f (Z.to_nat MaxScanTokenSize)
                ++ byte_nl :: list_byte_of_string "package main")
  = Some errNoPackage.
Proof.
  apply (proj2 (validateCode_line_limit (repeat x2f (Z.to_nat MaxScanTokenSize))
                  (list_byte_of_string "package main")
                  ltac:(intros H; apply repeat_spec in H; discriminate H)
                  ltac:(rewrite repeat_length, Z2Nat.id; [reflexivity|discriminate]))).
Defined.

(** ** Instances *)

Lemma gorun_workspace_removed_witness :
  exists r rest,
    trace (snd (Gorun.runWithGoModule
                  (host 1000 homeCache noFault false None "package main")
                  (list_byte_of_string "package main") emptyWorld))
    = EvCall (RemoveAll "/tmp/gogo-42") r :: rest
    /\ (r = None ->
        nothingUnder (host 1000 homeCache noFault false None "package main")
          "/tmp/gogo-42"
          (snd (Gorun.runWithGoModule
                  (host 1000 homeCache noFault false None "package main")
                  (list_byte_of_string "package main") emptyWorld))).
Proof.
  apply (gorun_workspace_removed
           (host 1000 homeCache noFault false None "package main")
           (list_byte_of_string "package main") emptyWorld _ "gogo-*").
  - symmetry. apply app_nil_r.
  - vm_compute. tauto.
Defined.

Lemma main_success_runs_twice_witness :
  exists code w1 w2,
    readInput (host 1000 homeCache noFault false None "package main") ""
      emptyWorld = (Ok code, w1)
    /\ code <> []
    /\ validateCode code = None
    /\ runEither (host 1000 homeCache noFault false None "package main")
         noFlags code w1 = (None, w2)
    /\ runEither (host 1000 homeCache noFault false None "package main")
         noFlags code w2
       = (None, snd (main (host 1000 homeCache noFault false None "package main")
                       noFlags emptyWorld)).
Proof.
  apply (main_success_runs_twice
           (host 1000 homeCache noFault false None "package main") noFlags
           emptyWorld eq_refl eq_refl).
  vm_compute. reflexivity.
Defined.

Lemma gorun_checks_before_building_witness :
  Gorun.main (host 1000 homeCache noFault false None "") [] emptyWorld
  = (0, {| fs := ∅;
           trace := rev (map EvPrint Gorun.usage)
                    ++ trace (snd (Gorun.readInput
                                     (host 1000 homeCache noFault false None "")
                                     [] emptyWorld)) |})
  /\ Gorun.main (host 1000 homeCache noFault false None "#!/usr/bin/env gogo")
       [] emptyWorld
     = (1, {| fs := ∅;
              trace :=
                EvPrint (Printf Plain Stderr ("Ошибка валидации: %v" +:+ nl)
                           [AErr errNoPackage])
                :: trace (snd (Gorun.readInput
                                 (host 1000 homeCache noFault false None
                                    "#!/usr/bin/env gogo") [] emptyWorld)) |}).
Proof.
  split.
  - apply (proj1 (gorun_checks_before_building
                    (host 1000 homeCache noFault false None "") [] []
                    emptyWorld _ eq_refl)).
    reflexivity.
  - apply (proj1 (proj2 (gorun_checks_before_building
                    (host 1000 homeCache noFault false None "#!/usr/bin/env gogo")
                    [] (list_byte_of_string "#!/usr/bin/env gogo")
                    emptyWorld _ eq_refl))).
    + discriminate.
    + vm_compute. reflexivity.
Defined.

Lemma cache_hit_runs_binary_only_witness :
  runCached (host 2000 homeCache noFault false None "package main")
    (list_byte_of_string "package main") (cachedWorld 1000)
  = (None,
     {| fs := fs (cachedWorld 1000);
        trace := [ EvExec (Command entryBinary [] "") None;
                   EvPrint (Printf Yellow Stdout "Using cached binary" []);
                   EvCall (Stat entryBinary) None ] |}).
Proof.
  apply (cache_hit_runs_binary_only
           (host 2000 homeCache noFault false None "package main")
           (list_byte_of_string "package main") (cachedWorld 1000)
           (File [] perm_0755 1000)).
  - reflexivity.
  - vm_compute. reflexivity.
  - vm_compute. reflexivity.
Defined.
